(** * Label print console (static/app.js)

    A shallow embedding of the browser-side controller of the label
    printing page: the typeahead search with its debounce timer, the
    preview refresh and the print submission, together with the parts of
    the JavaScript library the controller calls ([trim], [parseInt],
    [Math.max], [encodeURIComponent], [URLSearchParams], [JSON.stringify]).

    Conventions of the model.
    - A JavaScript string is the list of its UTF-16 code units.
    - The number [parseInt] gives for the count field is [NaN] or an
      integer, exact as long as the digits read are at most 15 (below
      2^53); the rounding of longer runs of digits to a double, and the
      infinity very long runs give, are not represented, and the
      general statements about the count are made for at most 15
      digits. The numbers of a product are kept as the text they are
      written as.
    - DOM elements are plain property stores: assigning a property stores
      the value, reading it gives the value back.
    - The asynchronous handlers are cut at their [await]s: the part that
      runs when the event is dispatched, and the part that runs when the
      awaited promise settles.
    - Two event loops are given: one whose timers fire as soon as they
      are due ([step], [reachable]) and one whose timers may be late
      ([loop_reachable]); the first is a particular case of the second.
    - What a request carries is stated by reading it back: the query of
      an address with the form-urlencoded parser, a JSON string with the
      escapes of JSON. *)

From Stdlib Require Import List NArith ZArith PArith Bool Lia String Ascii DecimalString.
Import ListNotations.

(** ** JavaScript values and library functions *)

Module JS.

Local Open Scope N_scope.

(** A UTF-16 code unit, and a string as the sequence of its code units. *)
Definition codeunit := N.
Definition jsstring := list codeunit.

(** The code units of an ASCII literal of the source text. *)
Definition lit (s : string) : jsstring :=
  map N_of_ascii (list_ascii_of_string s).

Arguments lit : simpl never.

(** ToBoolean on a string: only the empty string is falsy. *)
Definition truthy (s : jsstring) : bool :=
  match s with [] => false | _ :: _ => true end.

(** [a || b] on strings. *)
Definition or_else (a b : jsstring) : jsstring :=
  if truthy a then a else b.

(** WhiteSpace and LineTerminator code points (ECMA-262, 12.2 and 12.3);
    the set stripped by [trim] and skipped by [parseInt]. *)
Definition is_space (c : codeunit) : bool :=
  ((9 <=? c) && (c <=? 13))
  || (c =? 32) || (c =? 160) || (c =? 5760)
  || ((8192 <=? c) && (c <=? 8202))
  || (c =? 8232) || (c =? 8233) || (c =? 8239) || (c =? 8287)
  || (c =? 12288) || (c =? 65279).

Fixpoint trimStart (s : jsstring) : jsstring :=
  match s with
  | [] => []
  | c :: r => if is_space c then trimStart r else s
  end.

Definition trimEnd (s : jsstring) : jsstring := rev (trimStart (rev s)).

(** String.prototype.trim *)
Definition trim (s : jsstring) : jsstring := trimEnd (trimStart s).

Arguments trim : simpl never.

(** *** Numbers *)

Inductive number :=
| NaN
| Num (z : Z).

Definition is_digit (c : codeunit) : bool := (48 <=? c) && (c <=? 57).

(** The longest prefix of decimal digits, and what follows it. *)
Fixpoint span_digits (s : jsstring) : jsstring * jsstring :=
  match s with
  | [] => ([], [])
  | c :: r =>
      if is_digit c
      then let '(ds, rest) := span_digits r in (c :: ds, rest)
      else ([], s)
  end.

Definition digits_value (ds : jsstring) : Z :=
  fold_left (fun acc d => (10 * acc + (Z.of_N d - 48))%Z) ds 0%Z.

(** [parseInt(s, 10)]: leading white space is skipped, one sign is read,
    then the longest run of decimal digits; what follows is ignored, and
    an empty run of digits gives NaN. The integer given is the one the
    digits denote: this is the number the script gets for runs of at
    most 15 digits; for longer runs the script gets the nearest double,
    or an infinity, which this function does not compute. *)
Definition parseInt10 (s : jsstring) : number :=
  let s1 := trimStart s in
  let '(sign, s2) :=
    match s1 with
    | 45 :: r => ((-1)%Z, r)
    | 43 :: r => (1%Z, r)
    | _ => (1%Z, s1)
    end in
  match fst (span_digits s2) with
  | [] => NaN
  | ds => Num (sign * digits_value ds)
  end.

(** [Math.max(a, b)]: NaN as soon as one argument is NaN. *)
Definition Math_max (a b : number) : number :=
  match a, b with
  | Num x, Num y => Num (Z.max x y)
  | _, _ => NaN
  end.

(** Number::toString for the numbers of the model. *)
Definition Z_toString (z : Z) : jsstring :=
  lit (NilZero.string_of_int (Z.to_int z)).

Definition Number_toString (n : number) : jsstring :=
  match n with
  | NaN => lit "NaN"
  | Num z => Z_toString z
  end.

(** *** UTF-8 and percent-encoding *)

Definition is_lead (c : codeunit) : bool := (55296 <=? c) && (c <=? 56319).
Definition is_trail (c : codeunit) : bool := (56320 <=? c) && (c <=? 57343).

(** The code point of a surrogate pair. *)
Definition pair_codepoint (hi lo : codeunit) : N :=
  (hi - 55296) * 1024 + (lo - 56320) + 65536.

Definition utf8 (cp : N) : list N :=
  if cp <? 128 then [cp]
  else if cp <? 2048 then [192 + cp / 64; 128 + cp mod 64]
  else if cp <? 65536 then
    [224 + cp / 4096; 128 + (cp / 64) mod 64; 128 + cp mod 64]
  else
    [240 + cp / 262144; 128 + (cp / 4096) mod 64;
     128 + (cp / 64) mod 64; 128 + cp mod 64].

Definition hex_upper (d : N) : codeunit :=
  if d <? 10 then 48 + d else 55 + d.

Definition hex_lower (d : N) : codeunit :=
  if d <? 10 then 48 + d else 87 + d.

(** "%XX" for one octet. *)
Definition percent (b : N) : jsstring :=
  [37; hex_upper (b / 16); hex_upper (b mod 16)].

Definition percent_utf8 (cp : N) : jsstring :=
  flat_map percent (utf8 cp).

Definition is_alnum (c : codeunit) : bool :=
  is_digit c || ((65 <=? c) && (c <=? 90)) || ((97 <=? c) && (c <=? 122)).

(** The characters [encodeURIComponent] leaves as they are:
    letters, digits and - _ . ! ~ * ' ( ) *)
Definition uri_unreserved (c : codeunit) : bool :=
  is_alnum c
  || (c =? 45) || (c =? 95) || (c =? 46) || (c =? 33) || (c =? 126)
  || (c =? 42) || (c =? 39) || (c =? 40) || (c =? 41).

(** [encodeURIComponent(s)]; [None] is the URIError thrown on a
    surrogate code unit that is not part of a pair. *)
Fixpoint encodeURIComponent (s : jsstring) : option jsstring :=
  match s with
  | [] => Some []
  | c :: r =>
      if uri_unreserved c then option_map (cons c) (encodeURIComponent r)
      else if is_trail c then None
      else if is_lead c then
        match r with
        | d :: r' =>
            if is_trail d
            then option_map (app (percent_utf8 (pair_codepoint c d)))
                            (encodeURIComponent r')
            else None
        | [] => None
        end
      else option_map (app (percent_utf8 c)) (encodeURIComponent r)
  end.

Arguments encodeURIComponent : simpl never.

(** String.prototype.isWellFormed: every surrogate code unit is half of
    a pair, a leading one followed by a trailing one. *)
Fixpoint isWellFormed (s : jsstring) : bool :=
  match s with
  | [] => true
  | c :: r =>
      if is_trail c then false
      else if is_lead c then
        match r with
        | d :: r' => is_trail d && isWellFormed r'
        | [] => false
        end
      else isWellFormed r
  end.

(** The characters the application/x-www-form-urlencoded serializer
    leaves as they are: letters, digits and * - . _ *)
Definition form_unreserved (c : codeunit) : bool :=
  is_alnum c || (c =? 42) || (c =? 45) || (c =? 46) || (c =? 95).

(** The serializer on one name or value: a space becomes +, a surrogate
    outside a pair is read as U+FFFD, everything else outside the
    unreserved set is percent-encoded from its UTF-8 octets. *)
Fixpoint form_encode (s : jsstring) : jsstring :=
  match s with
  | [] => []
  | c :: r =>
      if form_unreserved c then c :: form_encode r
      else if c =? 32 then 43 :: form_encode r
      else if is_trail c then percent_utf8 65533 ++ form_encode r
      else if is_lead c then
        match r with
        | d :: r' =>
            if is_trail d
            then percent_utf8 (pair_codepoint c d) ++ form_encode r'
            else percent_utf8 65533 ++ form_encode r
        | [] => percent_utf8 65533
        end
      else percent_utf8 c ++ form_encode r
  end.

(** [new URLSearchParams(record).toString()]: name=value pairs in the
    order of the record's properties, joined by &. *)
Fixpoint URLSearchParams_toString (params : list (jsstring * jsstring))
  : jsstring :=
  match params with
  | [] => []
  | [(k, v)] => form_encode k ++ [61] ++ form_encode v
  | (k, v) :: rest =>
      form_encode k ++ [61] ++ form_encode v ++ [38]
        ++ URLSearchParams_toString rest
  end.

(** *** JSON.stringify *)

Definition hex4_lower (c : N) : jsstring :=
  [hex_lower (c / 4096); hex_lower ((c / 256) mod 16);
   hex_lower ((c / 16) mod 16); hex_lower (c mod 16)].

(** \uXXXX *)
Definition unicode_escape (c : codeunit) : jsstring := [92; 117] ++ hex4_lower c.

(** The body of QuoteJSONString: the two-character escapes, \uXXXX for
    the other control characters and for surrogates outside a pair. *)
Fixpoint json_escape (s : jsstring) : jsstring :=
  match s with
  | [] => []
  | c :: r =>
      if c =? 8 then [92; 98] ++ json_escape r
      else if c =? 9 then [92; 116] ++ json_escape r
      else if c =? 10 then [92; 110] ++ json_escape r
      else if c =? 12 then [92; 102] ++ json_escape r
      else if c =? 13 then [92; 114] ++ json_escape r
      else if c =? 34 then [92; 34] ++ json_escape r
      else if c =? 92 then [92; 92] ++ json_escape r
      else if c <? 32 then unicode_escape c ++ json_escape r
      else if is_trail c then unicode_escape c ++ json_escape r
      else if is_lead c then
        match r with
        | d :: r' =>
            if is_trail d then c :: d :: json_escape r'
            else unicode_escape c ++ json_escape r
        | [] => unicode_escape c
        end
      else c :: json_escape r
  end.

Definition json_string (s : jsstring) : jsstring :=
  [34] ++ json_escape s ++ [34].

(** A number in JSON text: NaN is written null (as an infinity would
    be), an integer below 10^21 in absolute value with all its digits. *)
Definition json_number (n : number) : jsstring :=
  match n with
  | NaN => lit "null"
  | Num z => Z_toString z
  end.

(** Array.prototype.join on an array of strings. *)
Fixpoint join (sep : jsstring) (l : list jsstring) : jsstring :=
  match l with
  | [] => []
  | [x] => x
  | x :: rest => x ++ sep ++ join sep rest
  end.

(** [needle] occurs in [hay]. *)
Definition contains (needle hay : jsstring) : Prop :=
  exists pre post, hay = pre ++ needle ++ post.

End JS.

Import JS.
Local Open Scope N_scope.

(** ** Data model *)

(** A number of the answer to a search. The script does one thing with
    such a number, whatever it is (an integer, a fraction, a large
    value): it writes it into a text. So a number is kept as the text
    Number::toString gives for it: "1", "0.5", "60.25", "1e+21". *)
Record jsnumber := { Number_text : jsstring }.

(** A product as the server sends it in the answer to a search. *)
Record Product := {
  name : jsstring;
  quantity : jsnumber;
  measure : jsstring;
  barcode : jsstring;
  mrp : jsnumber;
  retail_price : jsnumber
}.

(** The object the print handler builds and sends. *)
Record payload := {
  payload_barcode : jsstring;
  payload_count : number;
  payload_store_name : jsstring;
  payload_exp : jsstring
}.

(** [JSON.stringify(payload)] *)
Definition JSON_stringify (p : payload) : jsstring :=
  lit "{" ++ json_string (lit "barcode") ++ lit ":" ++ json_string (payload_barcode p)
  ++ lit "," ++ json_string (lit "count") ++ lit ":" ++ json_number (payload_count p)
  ++ lit "," ++ json_string (lit "store_name") ++ lit ":" ++ json_string (payload_store_name p)
  ++ lit "," ++ json_string (lit "exp") ++ lit ":" ++ json_string (payload_exp p)
  ++ lit "}".

(** The JSON body of the answer to a print request; [errors] is [None]
    when the property is absent or null. *)
Record PrintResult := {
  ok : bool;
  printed : Z;
  errors : option (list jsstring)
}.

(** A thrown error object, read through its [message]. *)
Record exn := { message : jsstring }.

(** A Response: its [ok] flag (status 2xx) and what [res.json()] settles
    to, an error when the body is not JSON text. *)
Record Response := {
  res_ok : bool;
  res_json : exn + PrintResult
}.

(** Requests leaving the page: [fetch(url)], the load started by
    assigning an image's [src], and [fetch(url, {method: "POST", ...})]. *)
Inductive request :=
| FetchGet (url : jsstring)
| ImageGet (url : jsstring)
| FetchPost (url content_type body : jsstring).

(** ** The page *)

(** The properties of the eight elements the script reads and writes.
    A suggestion row is its text and the product its click handler
    closes over. *)
Record Dom := {
  productSearch_value : jsstring;
  suggestions_display : jsstring;
  suggestions_children : list (jsstring * Product);
  previewImg_src : option jsstring;
  printBtn_disabled : bool;
  printBtn_textContent : jsstring;
  countInput_value : jsstring;
  expInput_value : jsstring;
  storeNameInput_value : jsstring;
  metaDiv_textContent : jsstring
}.

(** Assignment to one property of the page. *)
Definition set_productSearch_value v (d : Dom) : Dom :=
  {| productSearch_value := v;
     suggestions_display := suggestions_display d;
     suggestions_children := suggestions_children d;
     previewImg_src := previewImg_src d;
     printBtn_disabled := printBtn_disabled d;
     printBtn_textContent := printBtn_textContent d;
     countInput_value := countInput_value d;
     expInput_value := expInput_value d;
     storeNameInput_value := storeNameInput_value d;
     metaDiv_textContent := metaDiv_textContent d |}.

Definition set_suggestions_display v (d : Dom) : Dom :=
  {| productSearch_value := productSearch_value d;
     suggestions_display := v;
     suggestions_children := suggestions_children d;
     previewImg_src := previewImg_src d;
     printBtn_disabled := printBtn_disabled d;
     printBtn_textContent := printBtn_textContent d;
     countInput_value := countInput_value d;
     expInput_value := expInput_value d;
     storeNameInput_value := storeNameInput_value d;
     metaDiv_textContent := metaDiv_textContent d |}.

Definition set_suggestions_children v (d : Dom) : Dom :=
  {| productSearch_value := productSearch_value d;
     suggestions_display := suggestions_display d;
     suggestions_children := v;
     previewImg_src := previewImg_src d;
     printBtn_disabled := printBtn_disabled d;
     printBtn_textContent := printBtn_textContent d;
     countInput_value := countInput_value d;
     expInput_value := expInput_value d;
     storeNameInput_value := storeNameInput_value d;
     metaDiv_textContent := metaDiv_textContent d |}.

Definition set_previewImg_src v (d : Dom) : Dom :=
  {| productSearch_value := productSearch_value d;
     suggestions_display := suggestions_display d;
     suggestions_children := suggestions_children d;
     previewImg_src := v;
     printBtn_disabled := printBtn_disabled d;
     printBtn_textContent := printBtn_textContent d;
     countInput_value := countInput_value d;
     expInput_value := expInput_value d;
     storeNameInput_value := storeNameInput_value d;
     metaDiv_textContent := metaDiv_textContent d |}.

Definition set_printBtn_disabled v (d : Dom) : Dom :=
  {| productSearch_value := productSearch_value d;
     suggestions_display := suggestions_display d;
     suggestions_children := suggestions_children d;
     previewImg_src := previewImg_src d;
     printBtn_disabled := v;
     printBtn_textContent := printBtn_textContent d;
     countInput_value := countInput_value d;
     expInput_value := expInput_value d;
     storeNameInput_value := storeNameInput_value d;
     metaDiv_textContent := metaDiv_textContent d |}.

Definition set_printBtn_textContent v (d : Dom) : Dom :=
  {| productSearch_value := productSearch_value d;
     suggestions_display := suggestions_display d;
     suggestions_children := suggestions_children d;
     previewImg_src := previewImg_src d;
     printBtn_disabled := printBtn_disabled d;
     printBtn_textContent := v;
     countInput_value := countInput_value d;
     expInput_value := expInput_value d;
     storeNameInput_value := storeNameInput_value d;
     metaDiv_textContent := metaDiv_textContent d |}.

Definition set_countInput_value v (d : Dom) : Dom :=
  {| productSearch_value := productSearch_value d;
     suggestions_display := suggestions_display d;
     suggestions_children := suggestions_children d;
     previewImg_src := previewImg_src d;
     printBtn_disabled := printBtn_disabled d;
     printBtn_textContent := printBtn_textContent d;
     countInput_value := v;
     expInput_value := expInput_value d;
     storeNameInput_value := storeNameInput_value d;
     metaDiv_textContent := metaDiv_textContent d |}.

Definition set_expInput_value v (d : Dom) : Dom :=
  {| productSearch_value := productSearch_value d;
     suggestions_display := suggestions_display d;
     suggestions_children := suggestions_children d;
     previewImg_src := previewImg_src d;
     printBtn_disabled := printBtn_disabled d;
     printBtn_textContent := printBtn_textContent d;
     countInput_value := countInput_value d;
     expInput_value := v;
     storeNameInput_value := storeNameInput_value d;
     metaDiv_textContent := metaDiv_textContent d |}.

Definition set_storeNameInput_value v (d : Dom) : Dom :=
  {| productSearch_value := productSearch_value d;
     suggestions_display := suggestions_display d;
     suggestions_children := suggestions_children d;
     previewImg_src := previewImg_src d;
     printBtn_disabled := printBtn_disabled d;
     printBtn_textContent := printBtn_textContent d;
     countInput_value := countInput_value d;
     expInput_value := expInput_value d;
     storeNameInput_value := v;
     metaDiv_textContent := metaDiv_textContent d |}.

Definition set_metaDiv_textContent v (d : Dom) : Dom :=
  {| productSearch_value := productSearch_value d;
     suggestions_display := suggestions_display d;
     suggestions_children := suggestions_children d;
     previewImg_src := previewImg_src d;
     printBtn_disabled := printBtn_disabled d;
     printBtn_textContent := printBtn_textContent d;
     countInput_value := countInput_value d;
     expInput_value := expInput_value d;
     storeNameInput_value := storeNameInput_value d;
     metaDiv_textContent := v |}.

(** ** The browser around the script *)

(** A pending timer. The script has one [setTimeout] call, so a timer is
    its id, the time it is due, and the query [q] its callback closes
    over. *)
Record timer := {
  tid : positive;
  due : N;
  query : jsstring
}.

(** The clock, the timers that are set and have neither fired nor been
    cleared (in the order they were set), the next timer id, and what
    has been observed so far: the ids of the timers that fired, the
    requests issued and the texts shown by [alert], oldest first. *)
Record Env := {
  now : N;
  timers : list timer;
  next_timer : positive;
  fired : list positive;
  requests : list request;
  alerts : list jsstring
}.

Definition set_now v (e : Env) : Env :=
  {| now := v; timers := timers e; next_timer := next_timer e;
     fired := fired e; requests := requests e; alerts := alerts e |}.

Definition set_timers v (e : Env) : Env :=
  {| now := now e; timers := v; next_timer := next_timer e;
     fired := fired e; requests := requests e; alerts := alerts e |}.

Definition set_next_timer v (e : Env) : Env :=
  {| now := now e; timers := timers e; next_timer := v;
     fired := fired e; requests := requests e; alerts := alerts e |}.

Definition set_fired v (e : Env) : Env :=
  {| now := now e; timers := timers e; next_timer := next_timer e;
     fired := v; requests := requests e; alerts := alerts e |}.

Definition set_requests v (e : Env) : Env :=
  {| now := now e; timers := timers e; next_timer := next_timer e;
     fired := fired e; requests := v; alerts := alerts e |}.

Definition set_alerts v (e : Env) : Env :=
  {| now := now e; timers := timers e; next_timer := next_timer e;
     fired := fired e; requests := requests e; alerts := v |}.

(** [setTimeout(callback, delay)]: a fresh id, greater than zero. *)
Definition setTimeout (q : jsstring) (delay : N) (e : Env) : positive * Env :=
  let id := next_timer e in
  (id, set_next_timer (Pos.succ id)
         (set_timers (timers e ++ [{| tid := id; due := now e + delay; query := q |}]) e)).

(** [clearTimeout(id)]: the timer of that id, if it is pending, is
    dropped; nothing happens otherwise. *)
Definition clearTimeout (id : positive) (e : Env) : Env :=
  set_timers (filter (fun tm => negb (Pos.eqb (tid tm) id)) (timers e)) e.

Definition issue (r : request) (e : Env) : Env :=
  set_requests (requests e ++ [r]) e.

Definition alert (text : jsstring) (e : Env) : Env :=
  set_alerts (alerts e ++ [text]) e.

(** ** The controller *)

(** The two module variables of the script, the page and the browser. *)
Record State := {
  selectedProduct : option Product;
  searchTimer : option positive;
  dom : Dom;
  env : Env
}.

Definition set_selectedProduct v (s : State) : State :=
  {| selectedProduct := v; searchTimer := searchTimer s; dom := dom s; env := env s |}.

Definition set_searchTimer v (s : State) : State :=
  {| selectedProduct := selectedProduct s; searchTimer := v; dom := dom s; env := env s |}.

Definition set_env v (s : State) : State :=
  {| selectedProduct := selectedProduct s; searchTimer := searchTimer s; dom := dom s; env := v |}.

Definition with_dom (f : Dom -> Dom) (s : State) : State :=
  {| selectedProduct := selectedProduct s; searchTimer := searchTimer s;
     dom := f (dom s); env := env s |}.

Definition with_env (f : Env -> Env) (s : State) : State :=
  set_env (f (env s)) s.

(** The state when the script has been loaded into a page [d] at time [t]. *)
Definition initial (d : Dom) (t : N) : State :=
  {| selectedProduct := None;
     searchTimer := None;
     dom := d;
     env := {| now := t; timers := []; next_timer := 1%positive;
               fired := []; requests := []; alerts := [] |} |}.

(** [updatePreview()] *)
Definition updatePreview (s : State) : State :=
  match selectedProduct s with
  | None => s
  | Some p =>
      let params :=
        [(lit "barcode", barcode p);
         (lit "store", trim (storeNameInput_value (dom s)));
         (lit "exp", trim (expInput_value (dom s)))] in
      let src := lit "/preview?" ++ URLSearchParams_toString params in
      let s := with_env (issue (ImageGet src))
                 (with_dom (set_previewImg_src (Some src)) s) in
      with_dom (set_metaDiv_textContent
        (lit "Barcode: " ++ barcode p ++ lit " | "
         ++ lit "QTY: " ++ Number_text (quantity p) ++ lit " " ++ measure p ++ lit " | "
         ++ lit "MRP: " ++ [8377] ++ Number_text (mrp p)
         ++ lit " | RP: " ++ [8377] ++ Number_text (retail_price p))) s
  end.

(** [selectProduct(p)] *)
Definition selectProduct (p : Product) (s : State) : State :=
  let s := set_selectedProduct (Some p) s in
  let s := with_dom (set_productSearch_value (name p)) s in
  let s := with_dom (set_suggestions_display (lit "none")) s in
  let s := with_dom (set_printBtn_disabled false) s in
  updatePreview s.

(** The "input" listener of the search box; [e.target.value] is the
    value of the box. *)
Definition productSearch_input (s : State) : State :=
  let q := trim (productSearch_value (dom s)) in
  let s := set_selectedProduct None s in
  let s := with_dom (set_printBtn_disabled true) s in
  let s := with_dom (set_metaDiv_textContent []) s in
  let s := with_dom (set_previewImg_src None) s in
  let s := match searchTimer s with
           | Some id => with_env (clearTimeout id) s
           | None => s
           end in
  if negb (truthy q) then with_dom (set_suggestions_display (lit "none")) s
  else
    let '(id, e) := setTimeout q 180 (env s) in
    set_searchTimer (Some id) (set_env e s).

(** The timer callback up to its first [await]: the search request is
    issued, unless building its URL throws. *)
Definition searchTimer_callback (q : jsstring) (s : State) : State :=
  match encodeURIComponent q with
  | None => s
  | Some u => with_env (issue (FetchGet (lit "/api/products?q=" ++ u))) s
  end.

(** The text of a suggestion row. *)
Definition row_text (p : Product) : jsstring :=
  name p ++ lit " " ++ [8212] ++ lit " " ++ Number_text (quantity p) ++ lit " "
  ++ measure p ++ lit " | " ++ [8377] ++ Number_text (retail_price p).

(** The rest of the timer callback, once the answer has come and its
    body has been read as the array [items]. *)
Definition search_resolved (items : list Product) (s : State) : State :=
  let s := with_dom (set_suggestions_children []) s in
  match items with
  | [] => with_dom (set_suggestions_display (lit "none")) s
  | _ :: _ =>
      let s := with_dom (set_suggestions_children
                           (map (fun p => (row_text p, p)) items)) s in
      with_dom (set_suggestions_display (lit "block")) s
  end.

(** The "click" listener of the print button up to its [await]. *)
Definition printBtn_click (s : State) : State :=
  match selectedProduct s with
  | None => s
  | Some p =>
      let payload :=
        {| payload_barcode := barcode p;
           payload_count :=
             Math_max (Num 1)
               (parseInt10 (or_else (countInput_value (dom s)) (lit "1")));
           payload_store_name := trim (storeNameInput_value (dom s));
           payload_exp := trim (expInput_value (dom s)) |} in
      let s := with_dom (set_printBtn_disabled true) s in
      let s := with_dom (set_printBtn_textContent (lit "Printing" ++ [8230])) s in
      with_env (issue (FetchPost (lit "/api/print") (lit "application/json")
                                 (JSON_stringify payload))) s
  end.

(** The text of the two notifications of the [try] block. *)
Definition success_text (data : PrintResult) : jsstring :=
  lit "Printed " ++ Z_toString (printed data) ++ lit " label(s).".

Definition failure_text (data : PrintResult) : jsstring :=
  lit "Partial/failed print. Printed: " ++ Z_toString (printed data)
  ++ lit ". Errors: "
  ++ match errors data with
     | Some l => join (lit "; ") l
     | None => lit "undefined"
     end.

(** The [try] block from [await fetch(...)] on; [fetched] is what the
    fetch settles to. The left injection is a thrown error. *)
Definition print_try (fetched : exn + Response) (s : State) : exn + State :=
  match fetched with
  | inl e => inl e
  | inr res =>
      match res_json res with
      | inl e => inl e
      | inr data =>
          if res_ok res && ok data
          then inr (with_env (alert (success_text data)) s)
          else inr (with_env (alert (failure_text data)) s)
      end
  end.

(** The [catch] block. *)
Definition print_catch (e : exn) (s : State) : State :=
  with_env (alert (lit "Print failed: " ++ message e)) s.

(** The [finally] block. *)
Definition print_finally (s : State) : State :=
  let s := with_dom (set_printBtn_textContent (lit "Print")) s in
  with_dom (set_printBtn_disabled false) s.

(** The print handler from the moment the fetch settles to its end. *)
Definition print_settled (fetched : exn + Response) (s : State) : State :=
  print_finally
    match print_try fetched s with
    | inr s' => s'
    | inl e => print_catch e s
    end.

(** ** The event loop *)

(** A due timer fires: it leaves the pending timers and its callback
    runs. *)
Definition fire (tm : timer) (s : State) : State :=
  let s := with_env (fun e =>
             set_fired (fired e ++ [tid tm])
               (set_timers (filter (fun x => negb (Pos.eqb (tid x) (tid tm)))
                                   (timers e)) e)) s in
  searchTimer_callback (query tm) s.

(** Time passes up to [t] with no other event, in a browser whose
    timers are never late: the timers due by then fire, earliest set
    first. (The loop in which they may be late is [loop_reachable].) *)
Definition advance (t : N) (s : State) : State :=
  let due_now := filter (fun tm => due tm <=? t) (timers (env s)) in
  let s := fold_left (fun s tm => fire tm s) due_now s in
  with_env (fun e => set_now (N.max (now e) t) e) s.

(** What can happen to the page. The user's edits carry the new value of
    the field; a click on a suggestion names its row; the two settled
    events resume an asynchronous handler. *)
Inductive event :=
| SearchInput (v : jsstring)
| StoreInput (v : jsstring)
| ExpInput (v : jsstring)
| CountInput (v : jsstring)
| SuggestionClick (i : nat)
| PrintClick
| TimePasses (t : N)
| SearchResolved (items : list Product)
| PrintSettled (fetched : exn + Response).

Definition step (ev : event) (s : State) : State :=
  match ev with
  | SearchInput v => productSearch_input (with_dom (set_productSearch_value v) s)
  | StoreInput v => updatePreview (with_dom (set_storeNameInput_value v) s)
  | ExpInput v => updatePreview (with_dom (set_expInput_value v) s)
  | CountInput v => with_dom (set_countInput_value v) s
  | SuggestionClick i =>
      match nth_error (suggestions_children (dom s)) i with
      | Some (_, p) => selectProduct p s
      | None => s
      end
  | PrintClick => if printBtn_disabled (dom s) then s else printBtn_click s
  | TimePasses t => advance t s
  | SearchResolved items => search_resolved items s
  | PrintSettled fetched => print_settled fetched s
  end.

Definition run (evs : list event) (s : State) : State :=
  fold_left (fun s ev => step ev s) evs s.

(** The states the page can be in. *)
Inductive reachable : State -> Prop :=
| reachable_initial d t : reachable (initial d t)
| reachable_step ev s : reachable s -> reachable (step ev s).

(** A burst of edits of the search box: a first edit, then further edits,
    each given with the time elapsed since the one before. *)
Fixpoint burst (edits : list (N * jsstring)) (s : State) : State :=
  match edits with
  | [] => s
  | (gap, v) :: rest =>
      burst rest (step (SearchInput v) (step (TimePasses (now (env s) + gap)) s))
  end.

(** The quiet period of the debounce. *)
Definition quiet : N := 180.

Definition rapid (edits : list (N * jsstring)) : Prop :=
  Forall (fun e => fst e < quiet) edits.

(** The value of the search box after the burst. *)
Definition final_value (v0 : jsstring) (edits : list (N * jsstring)) : jsstring :=
  last (map snd edits) v0.

(** ** Sample data *)

Definition sample_dom : Dom :=
  {| productSearch_value := [];
     suggestions_display := lit "none";
     suggestions_children := [];
     previewImg_src := None;
     printBtn_disabled := true;
     printBtn_textContent := lit "Print";
     countInput_value := lit "1";
     expInput_value := [];
     storeNameInput_value := lit " Sri Vel ";
     metaDiv_textContent := [] |}.

Definition sample_product : Product :=
  {| name := lit "Rice";
     quantity := {| Number_text := lit "1" |};
     measure := lit "kg";
     barcode := lit "8901";
     mrp := {| Number_text := lit "60.5" |};
     retail_price := {| Number_text := lit "55.25" |} |}.

(** A page on which the sample product has been selected. *)
Definition sample_selected : State :=
  selectProduct sample_product (initial sample_dom 0).

(** ** Predicates on states *)

(** At most one timer is pending; it is the one [searchTimer] names and
    it is not due yet. *)
Definition timers_ok (s : State) : Prop :=
  match timers (env s) with
  | [] => True
  | [tm] => searchTimer s = Some (tid tm) /\ now (env s) < due tm
  | _ :: _ :: _ => False
  end.

(** The state of the timers right after an edit that left [v] in the
    search box: none when [v] trims to the empty string, else the one
    timer of that edit, due a quiet period from now. *)
Definition armed (v : jsstring) (s : State) : Prop :=
  match trim v with
  | [] => timers (env s) = []
  | _ :: _ =>
      exists id,
        searchTimer s = Some id
        /\ timers (env s) = [{| tid := id; due := now (env s) + quiet; query := trim v |}]
  end.

(** Destructs a state down to the fields of its environment. *)
Ltac open_state s :=
  let sel := fresh "sel" in
  let st := fresh "st" in
  let d := fresh "d" in
  let e := fresh "e" in
  destruct s as [sel st d e];
  let n := fresh "n" in
  let tms := fresh "tms" in
  let nx := fresh "nx" in
  let f := fresh "f" in
  let r := fresh "r" in
  let a := fresh "a" in
  destruct e as [n tms nx f r a].

(** The requests that submit a print. *)
Definition is_post (r : request) : bool :=
  match r with
  | FetchPost _ _ _ => true
  | _ => false
  end.

Definition print_requests (e : Env) : list request :=
  filter is_post (requests e).

(** The address of the preview of product [p] for the given contents of
    the store-name and expiry fields. *)
Definition preview_url (p : Product) (store exp : jsstring) : jsstring :=
  lit "/preview?barcode=" ++ form_encode (barcode p)
  ++ lit "&store=" ++ form_encode (trim store)
  ++ lit "&exp=" ++ form_encode (trim exp).

(** The text [updatePreview] puts in the metadata region for [p]. *)
Definition meta_text (p : Product) : jsstring :=
  lit "Barcode: " ++ barcode p ++ lit " | "
  ++ lit "QTY: " ++ Number_text (quantity p) ++ lit " " ++ measure p ++ lit " | "
  ++ lit "MRP: " ++ [8377] ++ Number_text (mrp p)
  ++ lit " | RP: " ++ [8377] ++ Number_text (retail_price p).

(** The preview shown is the one of the selected product for the present
    contents of the store-name and expiry fields. *)
Definition preview_consistent (s : State) : Prop :=
  match selectedProduct s with
  | Some p =>
      previewImg_src (dom s)
      = Some (preview_url p (storeNameInput_value (dom s)) (expInput_value (dom s)))
      /\ metaDiv_textContent (dom s) = meta_text p
  | None => True
  end.

(** The request the timer callback of an edit that left [v] in the
    search box issues when it runs: none when there is no timer (the
    trimmed text is empty) or when the encoding throws. *)
Definition search_request_of (v : jsstring) : list request :=
  match trim v with
  | [] => []
  | _ :: _ =>
      match encodeURIComponent (trim v) with
      | Some u => [FetchGet (lit "/api/products?q=" ++ u)]
      | None => []
      end
  end.

(** [s] has a digit after its leading white space and one optional sign. *)
Definition starts_with_integer (s : jsstring) : bool :=
  match
    match trimStart s with
    | 45 :: r => r
    | 43 :: r => r
    | r => r
    end
  with
  | c :: _ => is_digit c
  | [] => false
  end.

(** The digits [parseInt] reads from [s]: those that follow its leading
    white space and one optional sign. *)
Definition digit_run (s : jsstring) : jsstring :=
  fst (span_digits
         match trimStart s with
         | 45 :: r => r
         | 43 :: r => r
         | r => r
         end).

(** The characters that delimit the parts of an address and of its query:
    space # & + / = ? *)
Definition is_delimiter (c : codeunit) : bool :=
  (c =? 32) || (c =? 35) || (c =? 38) || (c =? 43) || (c =? 47)
  || (c =? 61) || (c =? 63).

(** How many times the code unit [c] occurs in [s]. *)
Definition occurrences (c : codeunit) (s : jsstring) : nat :=
  count_occ N.eq_dec s c.

(** *** Reading the requests back

    What the receiving end does with the text of a request; used to show
    that the text determines what was put into it. *)

(** The value of a hexadecimal digit 0-9 a-f. *)
Definition unhex_lower (h : codeunit) : N :=
  if h <? 58 then h - 48 else h - 87.

Definition unhex4 (a b c d : codeunit) : N :=
  ((unhex_lower a * 16 + unhex_lower b) * 16 + unhex_lower c) * 16
  + unhex_lower d.

(** The character a two-character escape of JSON stands for. *)
Definition unescape_char (x : codeunit) : codeunit :=
  if x =? 98 then 8
  else if x =? 116 then 9
  else if x =? 110 then 10
  else if x =? 102 then 12
  else if x =? 114 then 13
  else x.

Definition push (c : codeunit) (p : jsstring * jsstring) : jsstring * jsstring :=
  (c :: fst p, snd p).

(** Reads a JSON string literal from after its opening quote: the string
    it denotes and the text after its closing quote. *)
Fixpoint read_string (s : jsstring) : option (jsstring * jsstring) :=
  match s with
  | [] => None
  | c :: r =>
      if c =? 34 then Some ([], r)
      else if c =? 92 then
        match r with
        | [] => None
        | x :: r1 =>
            if x =? 117 then
              match r1 with
              | a :: b :: c4 :: d :: r2 =>
                  option_map (push (unhex4 a b c4 d)) (read_string r2)
              | _ => None
              end
            else option_map (push (unescape_char x)) (read_string r1)
        end
      else option_map (push c) (read_string r)
  end.

(** The requests of the typeahead search. *)
Definition is_search (r : request) : bool :=
  match r with
  | FetchGet _ => true
  | _ => false
  end.

Definition search_requests (e : Env) : list request :=
  filter is_search (requests e).

(** How many of the events are edits of the search box. *)
Definition is_edit (ev : event) : bool :=
  match ev with
  | SearchInput _ => true
  | _ => false
  end.

Definition edits_in (evs : list event) : nat :=
  List.length (filter is_edit evs).

(** Every element is a 16-bit code unit. *)
Definition sixteen_bit (s : jsstring) : bool :=
  forallb (fun c => c <? 65536) s.

(** A string of 16-bit code units with no surrogate outside a pair. *)
Definition is_text (s : jsstring) : bool :=
  sixteen_bit s && isWellFormed s.

(** A hexadecimal digit 0-9 A-F a-f, and its value. *)
Definition is_hex (h : codeunit) : bool :=
  is_digit h || ((65 <=? h) && (h <=? 70)) || ((97 <=? h) && (h <=? 102)).

Definition unhex (h : codeunit) : N :=
  if h <? 58 then h - 48 else if h <? 71 then h - 55 else h - 87.

(** The octets of a string in UTF-8; a surrogate outside a pair is
    written as U+FFFD. *)
Fixpoint utf8_encode (s : jsstring) : list N :=
  match s with
  | [] => []
  | c :: r =>
      if is_trail c then utf8 65533 ++ utf8_encode r
      else if is_lead c then
        match r with
        | d :: r' =>
            if is_trail d
            then utf8 (pair_codepoint c d) ++ utf8_encode r'
            else utf8 65533 ++ utf8_encode r
        | [] => utf8 65533
        end
      else utf8 c ++ utf8_encode r
  end.

(** Percent-decoding of octets: %XX is the octet XX, a % that two
    hexadecimal digits do not follow stands for itself; with [plus] a +
    stands for a space, as in a form-urlencoded query. *)
Fixpoint percent_decode (plus : bool) (s : jsstring) : list N :=
  match s with
  | [] => []
  | c :: r =>
      if c =? 37 then
        match r with
        | h :: l :: r' =>
            if is_hex h && is_hex l
            then (unhex h * 16 + unhex l) :: percent_decode plus r'
            else 37 :: percent_decode plus r
        | _ => 37 :: percent_decode plus r
        end
      else if plus && (c =? 43) then 32 :: percent_decode plus r
      else c :: percent_decode plus r
  end.

(** The UTF-8 decoder of the Encoding standard: the octets still needed
    for the code point being read, what has been read of it, and the
    bounds the next octet must lie in. *)
Record utf8_state := {
  needed : nat;
  codepoint : N;
  lower : N;
  upper : N
}.

Definition utf8_idle : utf8_state :=
  {| needed := 0; codepoint := 0; lower := 128; upper := 191 |}.

(** An octet read when none is needed: an ASCII character, the first
    octet of a sequence of two, three or four, or an error (U+FFFD). *)
Definition utf8_begin (b : N) : list N * utf8_state :=
  if b <? 128 then ([b], utf8_idle)
  else if (194 <=? b) && (b <=? 223) then
    ([], {| needed := 1; codepoint := b - 192; lower := 128; upper := 191 |})
  else if (224 <=? b) && (b <=? 239) then
    ([], {| needed := 2; codepoint := b - 224;
            lower := if b =? 224 then 160 else 128;
            upper := if b =? 237 then 159 else 191 |})
  else if (240 <=? b) && (b <=? 244) then
    ([], {| needed := 3; codepoint := b - 240;
            lower := if b =? 240 then 144 else 128;
            upper := if b =? 244 then 143 else 191 |})
  else ([65533], utf8_idle).

(** One octet: the code points it completes and the state after it. An
    octet out of bounds is an error and is read again as a first octet. *)
Definition utf8_step (st : utf8_state) (b : N) : list N * utf8_state :=
  match needed st with
  | O => utf8_begin b
  | S n =>
      if (lower st <=? b) && (b <=? upper st) then
        let cp := codepoint st * 64 + (b - 128) in
        match n with
        | O => ([cp], utf8_idle)
        | S _ => ([], {| needed := n; codepoint := cp; lower := 128; upper := 191 |})
        end
      else let '(out, st') := utf8_begin b in (65533 :: out, st')
  end.

Fixpoint utf8_run (st : utf8_state) (bs : list N) : list N :=
  match bs with
  | [] => match needed st with O => [] | S _ => [65533] end
  | b :: r => let '(out, st') := utf8_step st b in out ++ utf8_run st' r
  end.

(** The code units of a code point. *)
Definition utf16 (cp : N) : jsstring :=
  if cp <? 65536 then [cp]
  else [55296 + (cp - 65536) / 1024; 56320 + (cp - 65536) mod 1024].

(** Octets of UTF-8 to a string. *)
Definition utf8_decode (bs : list N) : jsstring :=
  flat_map utf16 (utf8_run utf8_idle bs).

(** A name or a value of a form-urlencoded query read back: its octets
    are percent-decoded and the result is read as UTF-8. *)
Definition form_decode (s : jsstring) : jsstring :=
  utf8_decode (percent_decode true (utf8_encode s)).

(** The pieces of [s] between the occurrences of [x]. *)
Fixpoint split_on (x : codeunit) (s : jsstring) : list jsstring :=
  match s with
  | [] => [[]]
  | c :: r =>
      if c =? x then [] :: split_on x r
      else match split_on x r with
           | h :: t => (c :: h) :: t
           | [] => [[c]]
           end
  end.

(** What precedes and what follows the first occurrence of [x] in [s];
    all of [s] and nothing when [x] does not occur. *)
Fixpoint cut_at (x : codeunit) (s : jsstring) : jsstring * jsstring :=
  match s with
  | [] => ([], [])
  | c :: r =>
      if c =? x then ([], r)
      else let '(a, b) := cut_at x r in (c :: a, b)
  end.

(** The form-urlencoded parser: the query is cut at every &, empty
    pieces are skipped, each piece is cut at its first = into a name and
    a value, and both are decoded. *)
Definition parse_query (q : jsstring) : list (jsstring * jsstring) :=
  map (fun piece => let '(n, v) := cut_at 61 piece in (form_decode n, form_decode v))
      (filter truthy (split_on 38 q)).

(** An address without its fragment (what follows the first #); its
    path, up to the first ?, and its query, after it. *)
Definition strip_fragment (url : jsstring) : jsstring := fst (cut_at 35 url).

Definition path_of (url : jsstring) : jsstring :=
  fst (cut_at 63 (strip_fragment url)).

Definition query_of (url : jsstring) : jsstring :=
  snd (cut_at 63 (strip_fragment url)).

(** [new URL(url, base).searchParams]: the pairs of the query of an
    address. *)
Definition searchParams (url : jsstring) : list (jsstring * jsstring) :=
  parse_query (query_of url).

(** [URLSearchParams.get(name)]: the value of the first pair of that name. *)
Fixpoint URLSearchParams_get (name : jsstring) (ps : list (jsstring * jsstring))
  : option jsstring :=
  match ps with
  | [] => None
  | (n, v) :: r =>
      if list_eq_dec N.eq_dec n name then Some v else URLSearchParams_get name r
  end.

(** *** Timers that may be late

    [setTimeout] promises that the callback is not run before the delay
    has passed, not that it is run as soon as it has. In the event loop
    below time passes without any timer firing, and a timer that is due
    fires at some later moment, if it has not been cleared by then. *)

(** Time passes by [g] and nothing else happens. *)
Definition tick (g : N) (s : State) : State :=
  with_env (fun e => set_now (now e + g) e) s.

(** The callbacks of the timers that are due are run now. *)
Definition fire_due (s : State) : State :=
  fold_left (fun s tm => fire tm s)
            (filter (fun tm => due tm <=? now (env s)) (timers (env s))) s.

Definition is_time (ev : event) : bool :=
  match ev with
  | TimePasses _ => true
  | _ => false
  end.

(** The states the page can be in when timers may be late: a handler
    runs, time passes, or one pending timer that is due fires. *)
Inductive loop_reachable : State -> Prop :=
| loop_initial d t : loop_reachable (initial d t)
| loop_handle ev s :
    loop_reachable s -> is_time ev = false -> loop_reachable (step ev s)
| loop_tick g s : loop_reachable s -> loop_reachable (tick g s)
| loop_fire tm s :
    loop_reachable s -> In tm (timers (env s)) -> due tm <= now (env s) ->
    loop_reachable (fire tm s).

(** At most one timer is pending, and it is the one [searchTimer] names. *)
Definition one_timer (s : State) : Prop :=
  match timers (env s) with
  | [] => True
  | [tm] => searchTimer s = Some (tid tm)
  | _ :: _ :: _ => False
  end.

(** The timers after an edit made at time [t0] that left [v] in the
    search box, as long as its timer has neither fired nor been cleared. *)
Definition armed_at (t0 : N) (v : jsstring) (s : State) : Prop :=
  match trim v with
  | [] => timers (env s) = []
  | _ :: _ =>
      exists id,
        searchTimer s = Some id
        /\ timers (env s) = [{| tid := id; due := t0 + quiet; query := trim v |}]
  end.

(** Rounds of typing: an edit that leaves [v] in the search box, a wait
    of [g], and then either the timers that are due fire before the next
    edit ([fires]) or they are late and do not. *)
Fixpoint rounds (rs : list (jsstring * N * bool)) (s : State) : State :=
  match rs with
  | [] => s
  | (v, g, fires) :: rest =>
      let s1 := tick g (step (SearchInput v) s) in
      rounds rest (if fires then fire_due s1 else s1)
  end.

(** The request a round issues: that of its edit, when the wait was a
    quiet period or more and the timer did fire. *)
Definition round_request (r : jsstring * N * bool) : list request :=
  let '(v, g, fires) := r in
  if fires && (quiet <=? g) then search_request_of v else [].

(** *** Tactics *)

(** Splits a hypothesis [is_delimiter c = true] into its seven cases. *)
Ltac delimiter_cases H :=
  unfold is_delimiter in H;
  repeat (apply orb_prop in H; destruct H as [H|H]);
  apply N.eqb_eq in H; subst.

(** Linear arithmetic with division and remainder by constants. *)
Ltac div_lia := zify; Z.to_euclidean_division_equations; lia.

(** Removes what two equal texts visibly start with alike. *)
Ltac strip_heads H :=
  repeat (apply app_inv_head in H);
  repeat match type of H with
         | _ :: _ = _ :: _ => injection H as H
         end.

(** Decides the comparisons of the goal by arithmetic. *)
Ltac decide_tests :=
  repeat match goal with
         | |- context [?a <? ?b] =>
             destruct (N.ltb_spec a b); try (exfalso; div_lia)
         | |- context [?a <=? ?b] =>
             destruct (N.leb_spec a b); try (exfalso; div_lia)
         | |- context [?a =? ?b] =>
             destruct (N.eqb_spec a b); try (exfalso; div_lia)
         end.

(** ** Properties of the library functions *)


Lemma last_cons_default {A : Type} (a d : A) (l : list A) :
  last (a :: l) d = last l a.
Proof.
  revert a d. induction l as [|b l IH]; intros a d; [reflexivity|].
  change (last (b :: l) d = last (b :: l) a).
  rewrite (IH b d), (IH b a). reflexivity.
Qed.

Lemma uri_unreserved_ascii (c : codeunit) :
  uri_unreserved c = true -> c < 128.
Proof.
  intro H. destruct (N.ltb_spec c 128) as [Hlt|Hge]; [exact Hlt|].
  exfalso. revert H.
  unfold uri_unreserved, is_alnum, is_digit.
  replace (c <=? 57) with false by (symmetry; apply N.leb_gt; lia).
  replace (c <=? 90) with false by (symmetry; apply N.leb_gt; lia).
  replace (c <=? 122) with false by (symmetry; apply N.leb_gt; lia).
  replace (c =? 45) with false by (symmetry; apply N.eqb_neq; lia).
  replace (c =? 95) with false by (symmetry; apply N.eqb_neq; lia).
  replace (c =? 46) with false by (symmetry; apply N.eqb_neq; lia).
  replace (c =? 33) with false by (symmetry; apply N.eqb_neq; lia).
  replace (c =? 126) with false by (symmetry; apply N.eqb_neq; lia).
  replace (c =? 42) with false by (symmetry; apply N.eqb_neq; lia).
  replace (c =? 39) with false by (symmetry; apply N.eqb_neq; lia).
  replace (c =? 40) with false by (symmetry; apply N.eqb_neq; lia).
  replace (c =? 41) with false by (symmetry; apply N.eqb_neq; lia).
  rewrite !andb_false_r. discriminate.
Qed.

Lemma ascii_not_surrogate (c : codeunit) :
  c < 128 -> is_trail c = false /\ is_lead c = false.
Proof.
  intro H. unfold is_trail, is_lead.
  replace (56320 <=? c) with false by (symmetry; apply N.leb_gt; lia).
  replace (55296 <=? c) with false by (symmetry; apply N.leb_gt; lia).
  split; reflexivity.
Qed.

(** [encodeURIComponent] does not throw on a well-formed string. *)
Lemma encodeURIComponent_isWellFormed (s : jsstring) :
  isWellFormed s = true -> exists u, encodeURIComponent s = Some u.
Proof.
  assert (H : forall n s, (List.length s <= n)%nat ->
                isWellFormed s = true -> exists u, encodeURIComponent s = Some u).
  { clear s. induction n as [|n IH]; intros s Hlen Hwf.
    - destruct s; [exists []; reflexivity|cbn in Hlen; lia].
    - destruct s as [|c r]; [exists []; reflexivity|].
      cbn in Hlen. cbn [isWellFormed] in Hwf.
      unfold encodeURIComponent; fold encodeURIComponent.
      destruct (uri_unreserved c) eqn:Hun.
      + destruct (ascii_not_surrogate c (uri_unreserved_ascii c Hun)) as [Ht Hl].
        rewrite Ht, Hl in Hwf.
        destruct (IH r ltac:(lia) Hwf) as [u Hu].
        rewrite Hu. eexists. reflexivity.
      + destruct (is_trail c); [discriminate|].
        destruct (is_lead c).
        * destruct r as [|d r']; [discriminate|].
          apply andb_prop in Hwf. destruct Hwf as [Hd Hwf].
          rewrite Hd. cbn in Hlen.
          destruct (IH r' ltac:(lia) Hwf) as [u Hu].
          rewrite Hu. eexists. reflexivity.
        * destruct (IH r ltac:(lia) Hwf) as [u Hu].
          rewrite Hu. eexists. reflexivity. }
  apply (H (List.length s) s). lia.
Qed.

(** A string of unreserved characters is its own form encoding. *)
Lemma form_encode_unreserved (s : jsstring) :
  forallb form_unreserved s = true -> form_encode s = s.
Proof.
  induction s as [|c r IH]; simpl; [reflexivity|].
  intro H. apply andb_prop in H. destruct H as [Hc Hr].
  rewrite Hc, (IH Hr). reflexivity.
Qed.

(** [Math.max(1, n)] is NaN exactly when [n] is, and at least 1 otherwise. *)
Lemma Math_max_1_cases (n : number) :
  (n = NaN /\ Math_max (Num 1) n = NaN)
  \/ (exists z, n <> NaN /\ Math_max (Num 1) n = Num z /\ (1 <= z)%Z).
Proof.
  destruct n as [|z]; [left; split; reflexivity|].
  right. exists (Z.max 1 z). split; [discriminate|]. split; [reflexivity|lia].
Qed.

(** The count fields of the specification that do give what it says. *)
Lemma count_of_listed_inputs :
  Math_max (Num 1) (parseInt10 (or_else (lit "") (lit "1"))) = Num 1
  /\ Math_max (Num 1) (parseInt10 (or_else (lit "0") (lit "1"))) = Num 1
  /\ Math_max (Num 1) (parseInt10 (or_else (lit "-3") (lit "1"))) = Num 1
  /\ Math_max (Num 1) (parseInt10 (or_else (lit "5") (lit "1"))) = Num 5.
Proof. repeat split; reflexivity. Qed.

(** ** The print request *)

(** C1. When the count field holds "abc", the print click handler does
    not submit the count 1: [parseInt] gives NaN, [Math.max(1, NaN)] is
    NaN, and the body of the request carries "count":null. *)
Theorem printBtn_click_count_abc (s : State) (p : Product) :
  selectedProduct s = Some p ->
  countInput_value (dom s) = lit "abc" ->
  let body :=
    JSON_stringify
      {| payload_barcode := barcode p;
         payload_count := NaN;
         payload_store_name := trim (storeNameInput_value (dom s));
         payload_exp := trim (expInput_value (dom s)) |} in
  requests (env (printBtn_click s))
  = requests (env s)
      ++ [FetchPost (lit "/api/print") (lit "application/json") body]
  /\ contains (json_string (lit "count") ++ lit ":null") body.
Proof.
  intros Hsel Hcount body. split.
  - unfold printBtn_click. rewrite Hsel, Hcount. reflexivity.
  - unfold body, JSON_stringify. cbn [payload_barcode payload_count json_number].
    exists (lit "{" ++ json_string (lit "barcode") ++ lit ":"
            ++ json_string (barcode p) ++ lit ","),
      (lit "," ++ json_string (lit "store_name") ++ lit ":"
       ++ json_string (payload_store_name
            {| payload_barcode := barcode p;
               payload_count := NaN;
               payload_store_name := trim (storeNameInput_value (dom s));
               payload_exp := trim (expInput_value (dom s)) |})
       ++ lit "," ++ json_string (lit "exp") ++ lit ":"
       ++ json_string (payload_exp
            {| payload_barcode := barcode p;
               payload_count := NaN;
               payload_store_name := trim (storeNameInput_value (dom s));
               payload_exp := trim (expInput_value (dom s)) |})
       ++ lit "}").
    change (lit ":null") with (lit ":" ++ lit "null").
    rewrite <- !app_assoc. reflexivity.
Qed.

Lemma printBtn_click_count_abc_witness :
  let s := step (CountInput (lit "abc")) sample_selected in
  requests (env (printBtn_click s))
  = requests (env s)
      ++ [FetchPost (lit "/api/print") (lit "application/json")
            (JSON_stringify
               {| payload_barcode := lit "8901";
                  payload_count := NaN;
                  payload_store_name := lit "Sri Vel";
                  payload_exp := [] |})].
Proof.
  exact (proj1 (printBtn_click_count_abc
                  (step (CountInput (lit "abc")) sample_selected)
                  sample_product eq_refl eq_refl)).
Defined.

(** ** The debounce timer *)

Lemma armed_timers_ok (v : jsstring) (s : State) : armed v s -> timers_ok s.
Proof.
  unfold armed, timers_ok, quiet. destruct (trim v).
  - intros ->. exact I.
  - intros (id & Hst & ->). cbn. split; [exact Hst | lia].
Qed.

(** An edit of the search box issues no request and fires no timer; it
    leaves the timers armed for the new value. *)
Lemma search_input_armed (v : jsstring) (s : State) :
  timers_ok s ->
  let s' := step (SearchInput v) s in
  armed v s'
  /\ requests (env s') = requests (env s)
  /\ fired (env s') = fired (env s)
  /\ now (env s') = now (env s).
Proof.
  unfold timers_ok, armed, step, productSearch_input.
  open_state s. cbn.
  destruct tms as [|tm [|tm' tms]]; [| |contradiction].
  - intros _. destruct st as [id|]; cbn; destruct (trim v) as [|c q]; cbn;
      repeat split; eauto.
  - intros [-> _]. cbn. rewrite Pos.eqb_refl. cbn.
    destruct (trim v) as [|c q]; cbn; rewrite ?Pos.eqb_refl; cbn;
      repeat split; eauto.
Qed.

(** While less than a quiet period passes after an edit, nothing fires. *)
Lemma armed_wait (v : jsstring) (gap : N) (s : State) :
  armed v s ->
  gap < quiet ->
  let s' := step (TimePasses (now (env s) + gap)) s in
  timers_ok s'
  /\ requests (env s') = requests (env s)
  /\ fired (env s') = fired (env s).
Proof.
  unfold armed, timers_ok, step, advance, quiet.
  open_state s. cbn.
  destruct (trim v) as [|c q].
  - intros -> _. cbn. auto.
  - intros (id & -> & ->) Hgap. cbn.
    destruct (N.leb_spec (n + 180) (n + gap)) as [Hle|Hlt]; [lia|].
    cbn. repeat split. lia.
Qed.

Lemma burst_armed (edits : list (N * jsstring)) :
  forall (v : jsstring) (s : State),
    rapid edits ->
    armed v s ->
    let s' := burst edits s in
    armed (final_value v edits) s'
    /\ requests (env s') = requests (env s)
    /\ fired (env s') = fired (env s).
Proof.
  induction edits as [|[gap w] rest IH]; intros v s Hrapid Harmed.
  - cbn. auto.
  - inversion Hrapid as [|x l Hgap Hrest]; subst. cbn in Hgap.
    destruct (armed_wait v gap s Harmed Hgap) as (Hok & Hreq & Hfired).
    destruct (search_input_armed w _ Hok) as (Harmed' & Hreq' & Hfired' & _).
    destruct (IH w _ Hrest Harmed') as (Hfinal & Hreq'' & Hfired'').
    unfold final_value in *. cbn [map snd].
    rewrite last_cons_default.
    cbn [burst]. split; [exact Hfinal|].
    split; congruence.
Qed.

(** Once a quiet period has passed after the last edit, its timer fires
    and the callback runs. *)
Lemma armed_fires (v : jsstring) (T : N) (s : State) :
  armed v s ->
  trim v <> [] ->
  quiet <= T ->
  let s' := step (TimePasses (now (env s) + T)) s in
  exists id,
    searchTimer s = Some id
    /\ fired (env s') = fired (env s) ++ [id]
    /\ timers (env s') = []
    /\ requests (env s')
       = match encodeURIComponent (trim v) with
         | Some u => requests (env s) ++ [FetchGet (lit "/api/products?q=" ++ u)]
         | None => requests (env s)
         end.
Proof.
  unfold armed, step, advance, quiet, fire, searchTimer_callback.
  open_state s. cbn.
  destruct (trim v) as [|c q] eqn:Hq; [congruence|].
  intros (id & -> & ->) _ HT. exists id. cbn.
  destruct (N.leb_spec (n + 180) (n + T)) as [Hle|Hlt]; [|lia].
  cbn. destruct (encodeURIComponent (c :: q)); cbn; rewrite Pos.eqb_refl; cbn; auto.
Qed.

Lemma step_timers_ok (ev : event) (s : State) :
  timers_ok s -> timers_ok (step ev s).
Proof.
  intro Hok. destruct ev as [v|v|v|v|i| |t|items|fetched].
  - apply (armed_timers_ok v). apply (search_input_armed v s Hok).
  - revert Hok. unfold timers_ok, step, updatePreview. open_state s.
    destruct sel; exact (fun H => H).
  - revert Hok. unfold timers_ok, step, updatePreview. open_state s.
    destruct sel; exact (fun H => H).
  - exact Hok.
  - revert Hok. unfold timers_ok, step, selectProduct, updatePreview. open_state s.
    cbn. destruct (nth_error (suggestions_children d) i) as [[txt p]|];
      exact (fun H => H).
  - revert Hok. unfold timers_ok, step, printBtn_click. open_state s.
    cbn. destruct (printBtn_disabled d); [exact (fun H => H)|].
    destruct sel; exact (fun H => H).
  - revert Hok. unfold timers_ok, step, advance, fire, searchTimer_callback.
    open_state s. cbn.
    destruct tms as [|tm [|tm' tms]]; [| |contradiction]; cbn; [auto|].
    intros [-> Hdue].
    destruct (N.leb_spec (due tm) t) as [Hle|Hlt]; cbn.
    + destruct (encodeURIComponent (query tm)); cbn;
        rewrite Pos.eqb_refl; exact I.
    + split; [reflexivity|lia].
  - revert Hok. unfold timers_ok, step, search_resolved. open_state s.
    destruct items; exact (fun H => H).
  - revert Hok. unfold timers_ok, step, print_settled, print_try, print_catch.
    open_state s. cbn.
    destruct fetched as [e|[rok [e|data]]]; cbn; try exact (fun H => H).
    destruct (rok && ok data); exact (fun H => H).
Qed.

Lemma reachable_timers_ok (s : State) : reachable s -> timers_ok s.
Proof.
  induction 1 as [d t|ev s _ IH]; [exact I|].
  apply step_timers_ok, IH.
Qed.

(** C2, as the code has it. From a state the page can be in, after a burst of edits of the search box,
    each less than the quiet period after the one before, that leaves a
    value whose trimmed text is not empty and is well formed (no
    surrogate outside a pair), waiting a quiet period or more issues
    exactly one search request, for the encoded final trimmed text; the
    only timer that fires is the one of the last edit, and none is left
    pending. *)
Theorem search_debounce
  (s : State) (v0 : jsstring) (edits : list (N * jsstring)) (T : N) :
  reachable s ->
  rapid edits ->
  trim (final_value v0 edits) <> [] ->
  isWellFormed (trim (final_value v0 edits)) = true ->
  quiet <= T ->
  let s1 := burst edits (step (SearchInput v0) s) in
  let s2 := step (TimePasses (now (env s1) + T)) s1 in
  exists u id,
    encodeURIComponent (trim (final_value v0 edits)) = Some u
    /\ requests (env s2) = requests (env s) ++ [FetchGet (lit "/api/products?q=" ++ u)]
    /\ searchTimer s1 = Some id
    /\ fired (env s2) = fired (env s) ++ [id]
    /\ timers (env s2) = [].
Proof.
  intros Hreach Hrapid Hq Hwf HT s1 s2.
  pose proof (reachable_timers_ok s Hreach) as Hok.
  destruct (encodeURIComponent_isWellFormed _ Hwf) as [u Hu].
  destruct (search_input_armed v0 s Hok) as (Harmed & Hreq & Hfired & _).
  destruct (burst_armed edits v0 _ Hrapid Harmed) as (Hfinal & Hreq' & Hfired').
  destruct (armed_fires _ T _ Hfinal Hq HT) as (id & Hid & Hf & Htm & Hr).
  fold s1 in Hid, Hf, Htm, Hr, Hreq', Hfired'. fold s2 in Hf, Htm, Hr.
  rewrite Hu in Hr.
  exists u, id. split; [exact Hu|]. split; [congruence|].
  split; [exact Hid|]. split; [congruence|exact Htm].
Qed.

Lemma search_debounce_witness :
  let s1 := burst [(100, lit "ri"); (179, lit "ric ")]
              (step (SearchInput (lit "r")) (initial sample_dom 0)) in
  let s2 := step (TimePasses (now (env s1) + 180)) s1 in
  exists u id,
    encodeURIComponent (lit "ric") = Some u
    /\ requests (env s2) = [FetchGet (lit "/api/products?q=" ++ u)]
    /\ searchTimer s1 = Some id
    /\ fired (env s2) = [id]
    /\ timers (env s2) = [].
Proof.
  refine (search_debounce (initial sample_dom 0) (lit "r")
            [(100, lit "ri"); (179, lit "ric ")] 180 _ _ _ _ _).
  - constructor.
  - repeat constructor.
  - vm_compute. discriminate.
  - reflexivity.
  - vm_compute. discriminate.
Defined.

(** C2 as stated fails when the final text holds a surrogate outside a
    pair (here "r", then the first half of an emoji): the text is not
    empty, the timer of the last edit fires, [encodeURIComponent] throws
    in the callback and no request is issued. *)
Lemma search_debounce_unpaired_surrogate :
  let edits := [(100, lit "r" ++ [55357])] in
  let s1 := burst edits (step (SearchInput (lit "r")) (initial sample_dom 0)) in
  let s2 := step (TimePasses (now (env s1) + quiet)) s1 in
  rapid edits
  /\ trim (final_value (lit "r") edits) <> []
  /\ encodeURIComponent (trim (final_value (lit "r") edits)) = None
  /\ fired (env s2) = [2%positive]
  /\ requests (env s2) = [].
Proof.
  cbv zeta. split; [|split; [|split; [|split]]].
  - repeat constructor.
  - vm_compute. discriminate.
  - reflexivity.
  - reflexivity.
  - reflexivity.
Qed.

(** C6. An edit that leaves only white space in the search box hides the
    suggestion list, sets no timer and issues no request; in a state the
    page can be in nothing is left pending either, so that no request
    follows however long one waits. *)
Theorem search_input_empty (s : State) (v : jsstring) :
  trim v = [] ->
  let s' := step (SearchInput v) s in
  suggestions_display (dom s') = lit "none"
  /\ requests (env s') = requests (env s)
  /\ next_timer (env s') = next_timer (env s)
  /\ incl (timers (env s')) (timers (env s))
  /\ (reachable s ->
      timers (env s') = []
      /\ forall t, requests (env (step (TimePasses t) s')) = requests (env s)).
Proof.
  intros Hv s'.
  assert (Hs' : s' = step (SearchInput v) s) by reflexivity.
  split; [|split; [|split; [|split]]].
  - subst s'. unfold step, productSearch_input. open_state s. cbn. rewrite Hv.
    destruct st; reflexivity.
  - subst s'. unfold step, productSearch_input. open_state s. cbn. rewrite Hv.
    destruct st; reflexivity.
  - subst s'. unfold step, productSearch_input. open_state s. cbn. rewrite Hv.
    destruct st; reflexivity.
  - subst s'. unfold step, productSearch_input. open_state s. cbn. rewrite Hv.
    destruct st; cbn; [apply incl_filter|apply incl_refl].
  - intro Hreach.
    pose proof (reachable_timers_ok s Hreach) as Hok.
    destruct (search_input_armed v s Hok) as (Harmed & Hreq & _).
    unfold armed in Harmed. rewrite Hv in Harmed. fold s' in Harmed, Hreq.
    split; [exact Harmed|].
    intro t. unfold step, advance. rewrite Harmed. cbn. exact Hreq.
Qed.

Lemma search_input_empty_witness :
  let s' := step (SearchInput (lit "  ")) (step (SearchInput (lit "ri")) (initial sample_dom 0)) in
  suggestions_display (dom s') = lit "none"
  /\ requests (env s') = []
  /\ timers (env s') = [].
Proof.
  pose proof (search_input_empty
                (step (SearchInput (lit "ri")) (initial sample_dom 0))
                (lit "  ") eq_refl) as H.
  cbv zeta in H.
  destruct H as (Hd & Hr & _ & _ & Ht).
  split; [exact Hd|]. split; [exact Hr|].
  refine (proj1 (Ht _)).
  repeat constructor.
Defined.

(** ** Cleanup and notifications of the print handler *)

(** C3. However the fetch of a print attempt settles, and whatever
    happened on the page while it was pending, the handler ends with the
    print button enabled and labelled "Print"; between the click and
    that moment the button is disabled and labelled "Printing" followed
    by an ellipsis. *)
Theorem print_cleanup
  (s : State) (p : Product) (evs : list event) (fetched : exn + Response) :
  selectedProduct s = Some p ->
  let busy := printBtn_click s in
  let s' := print_settled fetched (run evs busy) in
  printBtn_disabled (dom busy) = true
  /\ printBtn_textContent (dom busy) = lit "Printing" ++ [8230]
  /\ printBtn_disabled (dom s') = false
  /\ printBtn_textContent (dom s') = lit "Print".
Proof.
  intros Hsel busy s'. subst busy s'.
  unfold printBtn_click. rewrite Hsel.
  repeat split.
Qed.

Lemma print_cleanup_witness :
  let busy := printBtn_click sample_selected in
  let s' := print_settled (inl {| message := lit "Failed to fetch" |})
              (run [SearchInput (lit "r")] busy) in
  printBtn_disabled (dom busy) = true
  /\ printBtn_textContent (dom busy) = lit "Printing" ++ [8230]
  /\ printBtn_disabled (dom s') = false
  /\ printBtn_textContent (dom s') = lit "Print".
Proof.
  exact (print_cleanup sample_selected sample_product
           [SearchInput (lit "r")]
           (inl {| message := lit "Failed to fetch" |}) eq_refl).
Defined.




(** C10. When the body of the answer is not JSON, whatever the status,
    the one notification is "Print failed: " followed by the message of
    the error thrown by the parse; it is neither the failure text nor
    the success text of any print result, and the button is enabled and
    labelled "Print" again. *)
Theorem print_body_not_json (s : State) (status_ok : bool) (e : exn) :
  let s' := print_settled (inr {| res_ok := status_ok; res_json := inl e |}) s in
  print_try (inr {| res_ok := status_ok; res_json := inl e |}) s = inl e
  /\ alerts (env s') = alerts (env s) ++ [lit "Print failed: " ++ message e]
  /\ (forall data, lit "Print failed: " ++ message e <> failure_text data)
  /\ (forall data, lit "Print failed: " ++ message e <> success_text data)
  /\ printBtn_disabled (dom s') = false
  /\ printBtn_textContent (dom s') = lit "Print".
Proof.
  cbv zeta. split; [reflexivity|]. split; [reflexivity|].
  split; [|split; [|split; reflexivity]].
  - intros data H. vm_compute in H. discriminate H.
  - intros data H. vm_compute in H. discriminate H.
Qed.

Lemma print_body_not_json_witness :
  alerts (env (print_settled
                 (inr {| res_ok := false;
                         res_json := inl {| message := lit "Unexpected token <" |} |})
                 sample_selected))
  = [lit "Print failed: Unexpected token <"].
Proof.
  exact (proj1 (proj2 (print_body_not_json sample_selected false
                         {| message := lit "Unexpected token <" |}))).
Defined.

(** ** Selection, preview and the search box *)

(** When the barcode and the two trimmed fields hold only letters,
    digits and * - . _ the address of the preview has them as they are. *)
Lemma preview_url_plain (p : Product) (store exp : jsstring) :
  forallb form_unreserved (barcode p) = true ->
  forallb form_unreserved (trim store) = true ->
  forallb form_unreserved (trim exp) = true ->
  preview_url p store exp
  = lit "/preview?barcode=" ++ barcode p
    ++ lit "&store=" ++ trim store ++ lit "&exp=" ++ trim exp.
Proof.
  intros Hb Hs He. unfold preview_url.
  rewrite (form_encode_unreserved _ Hb), (form_encode_unreserved _ Hs),
    (form_encode_unreserved _ He).
  reflexivity.
Qed.

Lemma updatePreview_selected (s : State) (p : Product) :
  selectedProduct s = Some p ->
  requests (env (updatePreview s))
  = requests (env s)
      ++ [ImageGet (preview_url p (storeNameInput_value (dom s))
                                  (expInput_value (dom s)))]
  /\ previewImg_src (dom (updatePreview s))
     = Some (preview_url p (storeNameInput_value (dom s)) (expInput_value (dom s))).
Proof.
  intro Hsel. unfold updatePreview. rewrite Hsel. split; reflexivity.
Qed.

Lemma fire_print_requests (tm : timer) (s : State) :
  print_requests (env (fire tm s)) = print_requests (env s)
  /\ selectedProduct (fire tm s) = selectedProduct s.
Proof.
  unfold fire, searchTimer_callback, print_requests.
  destruct (encodeURIComponent (query tm)); cbn.
  - rewrite filter_app, app_nil_r. split; reflexivity.
  - split; reflexivity.
Qed.

Lemma fold_fire_print_requests (l : list timer) :
  forall s : State,
    print_requests (env (fold_left (fun s tm => fire tm s) l s))
    = print_requests (env s).
Proof.
  induction l as [|tm l IH]; intro s; [reflexivity|].
  cbn [fold_left]. rewrite IH. apply fire_print_requests.
Qed.

(** No event but a click on the print button submits a print, and a
    click does so only with a product selected. *)
Lemma step_print_requests (ev : event) (s : State) :
  selectedProduct s = None ->
  print_requests (env (step ev s)) = print_requests (env s).
Proof.
  intro Hsel. destruct ev as [v|v|v|v|i| |t|items|fetched]; cbn [step].
  - unfold productSearch_input. cbn.
    destruct (searchTimer s); cbn;
      destruct (truthy (trim v)); reflexivity.
  - unfold updatePreview. cbn. rewrite Hsel. reflexivity.
  - unfold updatePreview. cbn. rewrite Hsel. reflexivity.
  - reflexivity.
  - destruct (nth_error (suggestions_children (dom s)) i) as [[txt p]|];
      [|reflexivity].
    unfold selectProduct, updatePreview, print_requests. cbn.
    rewrite filter_app, app_nil_r. reflexivity.
  - unfold printBtn_click. rewrite Hsel.
    destruct (printBtn_disabled (dom s)); reflexivity.
  - unfold advance. unfold print_requests at 1. cbn.
    apply fold_fire_print_requests.
  - unfold search_resolved. destruct items; reflexivity.
  - unfold print_settled, print_try, print_catch.
    destruct fetched as [e|[rok [e|data]]]; cbn; try reflexivity.
    destruct (rok && ok data); reflexivity.
Qed.

(** C5. In every state: an edit of the search box clears the selection
    and disables the print button; selecting a product sets the
    selection and enables the button; with no selection the print click
    handler changes nothing, and no event at all submits a print. *)
Theorem print_needs_selection (s : State) :
  (forall v, let s' := step (SearchInput v) s in
     selectedProduct s' = None /\ printBtn_disabled (dom s') = true)
  /\ (forall p, let s' := selectProduct p s in
        selectedProduct s' = Some p /\ printBtn_disabled (dom s') = false)
  /\ (selectedProduct s = None -> printBtn_click s = s)
  /\ (selectedProduct s = None ->
      forall ev, print_requests (env (step ev s)) = print_requests (env s)).
Proof.
  split; [|split; [|split]].
  - intro v. cbn. unfold productSearch_input. cbn.
    destruct (searchTimer s); cbn; destruct (truthy (trim v)); split; reflexivity.
  - intro p. split; reflexivity.
  - intro Hsel. unfold printBtn_click. rewrite Hsel. reflexivity.
  - intros Hsel ev. apply step_print_requests, Hsel.
Qed.

Lemma print_needs_selection_witness :
  let s := step (SearchInput (lit "ri")) sample_selected in
  printBtn_click s = s
  /\ print_requests (env (step PrintClick s)) = print_requests (env s).
Proof.
  pose proof (print_needs_selection
                (step (SearchInput (lit "ri")) sample_selected)) as H.
  destruct H as (_ & _ & Hclick & Hev).
  split; [exact (Hclick eq_refl)|exact (Hev eq_refl PrintClick)].
Defined.

(** C9. Every edit of the search box, whatever it leaves in the box,
    empties the metadata text and removes the source of the preview
    image. *)
Theorem search_input_clears_preview (s : State) (v : jsstring) :
  let s' := step (SearchInput v) s in
  metaDiv_textContent (dom s') = []
  /\ previewImg_src (dom s') = None.
Proof.
  cbn. unfold productSearch_input. cbn.
  destruct (searchTimer s); cbn; destruct (truthy (trim v)); split; reflexivity.
Qed.

(** ** Further properties of the search box *)

Lemma trimStart_nil_iff (s : jsstring) :
  trimStart s = [] <-> forallb is_space s = true.
Proof.
  induction s as [|c r IH]; cbn; [tauto|].
  destruct (is_space c); cbn; [exact IH|]. split; discriminate.
Qed.

(** What [trimStart] removes is white space, and what it leaves does not
    start with white space. *)
Lemma trimStart_split (s : jsstring) :
  exists pre,
    s = pre ++ trimStart s
    /\ forallb is_space pre = true
    /\ match trimStart s with
       | [] => True
       | c :: _ => is_space c = false
       end.
Proof.
  induction s as [|c r (pre & Hs & Hpre & Hhead)]; cbn.
  - exists []. repeat split.
  - destruct (is_space c) eqn:Hc.
    + exists (c :: pre). cbn. rewrite Hc, Hpre, <- Hs. repeat split. exact Hhead.
    + exists []. repeat split. exact Hc.
Qed.

Lemma forallb_rev (f : codeunit -> bool) (s : jsstring) :
  forallb f (rev s) = forallb f s.
Proof.
  induction s as [|c r IH]; cbn; [reflexivity|].
  rewrite forallb_app, IH. cbn. rewrite andb_true_r. apply andb_comm.
Qed.

(** [trim] gives the empty string exactly on strings of white space. *)
Lemma trim_nil_iff (s : jsstring) :
  trim s = [] <-> forallb is_space s = true.
Proof.
  unfold trim, trimEnd. split.
  - intro H.
    apply (f_equal (@rev codeunit)) in H. rewrite rev_involutive in H. cbn in H.
    apply trimStart_nil_iff in H. rewrite forallb_rev in H.
    destruct (trimStart_split s) as (pre & Hs & Hpre & Hhead).
    destruct (trimStart s) as [|c r] eqn:Hts.
    + apply trimStart_nil_iff. exact Hts.
    + cbn in H. rewrite Hhead in H. discriminate.
  - intro H. apply trimStart_nil_iff in H. rewrite H. reflexivity.
Qed.

(** A trimmed string that is not empty starts and ends with characters
    that are not white space. *)
Lemma trim_ends (s : jsstring) (c : codeunit) (r : jsstring) :
  trim s = c :: r ->
  is_space c = false /\ is_space (last r c) = false.
Proof.
  unfold trim, trimEnd. intro H.
  destruct (trimStart_split s) as (_ & _ & _ & Hhead).
  set (t := trimStart s) in *.
  destruct (trimStart_split (rev t)) as (pre & Ht & Hpre & Hhead').
  set (u := trimStart (rev t)) in *.
  assert (Hu : u = rev (c :: r))
    by (rewrite <- H; symmetry; apply rev_involutive).
  assert (Htt : t = (c :: r) ++ rev pre).
  { rewrite <- (rev_involutive t), Ht, rev_app_distr, Hu, rev_involutive.
    reflexivity. }
  rewrite Htt in Hhead. cbn in Hhead. split; [exact Hhead|].
  rewrite Hu in Hhead'. 
  rewrite <- last_cons_default with (d := c).
  destruct (exists_last (l := c :: r) ltac:(discriminate)) as (l' & z & Hl).
  rewrite Hl in *. rewrite rev_app_distr in Hhead'. cbn in Hhead'.
  rewrite last_last. exact Hhead'.
Qed.

(** X1. From a state the page can be in, an edit of the search box sets
    a timer exactly when the box holds a character that is not white
    space: a box of white space leaves no timer pending and hides the
    list; otherwise the one pending timer is due a quiet period later
    and its query is the trimmed text, which neither starts nor ends
    with white space. *)
Theorem search_input_timer_iff (s : State) (v : jsstring) :
  reachable s ->
  let s' := step (SearchInput v) s in
  (forallb is_space v = true ->
     timers (env s') = [] /\ suggestions_display (dom s') = lit "none")
  /\ (forallb is_space v = false ->
      exists id c r,
        trim v = c :: r
        /\ is_space c = false
        /\ is_space (last r c) = false
        /\ searchTimer s' = Some id
        /\ timers (env s')
           = [{| tid := id; due := now (env s) + quiet; query := c :: r |}]).
Proof.
  intros Hreach s'.
  destruct (search_input_armed v s (reachable_timers_ok s Hreach))
    as (Harmed & _ & _ & Hnow).
  fold s' in Harmed, Hnow. unfold armed in Harmed. split.
  - intro Hsp. apply trim_nil_iff in Hsp. rewrite Hsp in Harmed.
    split; [exact Harmed|].
    subst s'. unfold step, productSearch_input. open_state s. cbn. rewrite Hsp.
    destruct st; reflexivity.
  - intro Hsp. destruct (trim v) as [|c r] eqn:Htrim.
    + apply trim_nil_iff in Htrim. congruence.
    + destruct Harmed as (id & Hid & Htm).
      destruct (trim_ends v c r Htrim) as [Hc Hlast].
      exists id, c, r. rewrite <- Hnow. repeat split; assumption.
Qed.

Lemma search_input_timer_iff_witness :
  let s' := step (SearchInput (lit "  ri ce  ")) (initial sample_dom 7) in
  exists id c r,
    trim (lit "  ri ce  ") = c :: r
    /\ is_space c = false
    /\ is_space (last r c) = false
    /\ searchTimer s' = Some id
    /\ timers (env s') = [{| tid := id; due := 7 + quiet; query := c :: r |}].
Proof.
  exact (proj2 (search_input_timer_iff (initial sample_dom 7) (lit "  ri ce  ")
                  (reachable_initial sample_dom 7)) eq_refl).
Defined.

Lemma reachable_run (evs : list event) :
  forall s : State, reachable s -> reachable (run evs s).
Proof.
  induction evs as [|ev evs IH]; intros s Hs; [exact Hs|].
  apply (IH (step ev s)). constructor. exact Hs.
Qed.

Lemma step_one_timer (ev : event) (s : State) :
  is_time ev = false -> one_timer s -> one_timer (step ev s).
Proof.
  destruct ev as [v|v|v|v|i| |t|items|fetched]; cbn [is_time step];
    intros Hev Hok; try discriminate Hev.
  - revert Hok. unfold one_timer, productSearch_input. open_state s. cbn.
    destruct tms as [|tm [|tm' tms]]; [| |contradiction].
    + intros _. destruct st; cbn; destruct (truthy (trim v)); cbn; auto.
    + intros ->. cbn.
      destruct (truthy (trim v)); cbn; rewrite Pos.eqb_refl; cbn; auto.
  - revert Hok. unfold one_timer, updatePreview. open_state s.
    destruct sel; exact (fun H => H).
  - revert Hok. unfold one_timer, updatePreview. open_state s.
    destruct sel; exact (fun H => H).
  - exact Hok.
  - revert Hok. unfold one_timer, selectProduct, updatePreview. open_state s.
    cbn. destruct (nth_error (suggestions_children d) i) as [[txt p]|];
      exact (fun H => H).
  - revert Hok. unfold one_timer, printBtn_click. open_state s.
    cbn. destruct (printBtn_disabled d); [exact (fun H => H)|].
    destruct sel; exact (fun H => H).
  - revert Hok. unfold one_timer, search_resolved. open_state s.
    destruct items; exact (fun H => H).
  - revert Hok. unfold one_timer, print_settled, print_try, print_catch.
    open_state s. cbn.
    destruct fetched as [e|[rok [e|data]]]; cbn; try exact (fun H => H).
    destruct (rok && ok data); exact (fun H => H).
Qed.

Lemma fire_one_timer (tm : timer) (s : State) :
  In tm (timers (env s)) -> one_timer s -> one_timer (fire tm s).
Proof.
  unfold one_timer, fire, searchTimer_callback. open_state s. cbn.
  destruct tms as [|tm0 [|tm' tms]]; [intros []| |contradiction].
  intros [<-|[]] _.
  destruct (encodeURIComponent (query tm0)); cbn; rewrite Pos.eqb_refl; exact I.
Qed.

Lemma loop_reachable_one_timer (s : State) : loop_reachable s -> one_timer s.
Proof.
  induction 1 as [d t|ev s _ IH Hev|g s _ IH|tm s _ IH Hin Hdue].
  - exact I.
  - exact (step_one_timer ev s Hev IH).
  - exact IH.
  - exact (fire_one_timer tm s Hin IH).
Qed.

(** The event loop in which every timer fires as soon as it is due is a
    particular case of the one in which timers may be late. *)
Lemma reachable_loop_reachable (s : State) : reachable s -> loop_reachable s.
Proof.
  induction 1 as [d t|ev s Hs IH]; [apply loop_initial|].
  destruct (is_time ev) eqn:Hev; [|exact (loop_handle ev s IH Hev)].
  destruct ev as [v|v|v|v|i| |t|items|fetched]; try discriminate Hev.
  pose proof (reachable_timers_ok s Hs) as Hok.
  cbn [step].
  set (g := N.max (now (env s)) t - now (env s)).
  assert (Hg : now (env s) + g = N.max (now (env s)) t) by (unfold g; lia).
  unfold timers_ok in Hok.
  destruct (timers (env s)) as [|tm [|tm' tms]] eqn:Htm; [| |contradiction].
  - replace (advance t s) with (tick g s); [apply loop_tick, IH|].
    unfold advance, tick. rewrite Htm. cbn. unfold with_env. rewrite Hg.
    reflexivity.
  - destruct Hok as [Hid Hdue].
    destruct (N.leb_spec (due tm) t) as [Hle|Hlt].
    + replace (advance t s) with (fire tm (tick g s)).
      * apply loop_fire; [apply loop_tick, IH| |].
        -- cbn. rewrite Htm. left. reflexivity.
        -- cbn. lia.
      * unfold advance. rewrite Htm. cbn [filter].
        destruct (N.leb_spec (due tm) t); [|lia]. cbn [fold_left].
        unfold fire, searchTimer_callback, tick.
        destruct (encodeURIComponent (query tm)); cbn; unfold with_env; cbn;
          rewrite Hg; reflexivity.
    + replace (advance t s) with (tick g s); [apply loop_tick, IH|].
      unfold advance, tick. rewrite Htm. cbn [filter].
      destruct (N.leb_spec (due tm) t); [lia|]. cbn. unfold with_env.
      rewrite Hg. reflexivity.
Qed.

(** X2. In every state the page can be in, also when timers fire late,
    at most one timer is pending, and it is the one [searchTimer]
    holds. *)
Theorem one_pending_timer (s : State) :
  loop_reachable s ->
  (List.length (timers (env s)) <= 1)%nat
  /\ forall tm, In tm (timers (env s)) -> searchTimer s = Some (tid tm).
Proof.
  intro Hreach. pose proof (loop_reachable_one_timer s Hreach) as Hok.
  unfold one_timer in Hok.
  destruct (timers (env s)) as [|tm [|tm' tms]]; cbn.
  - split; [lia|]. intros tm [].
  - split; [lia|]. intros x [<-|[]]. exact Hok.
  - contradiction.
Qed.

Lemma one_pending_timer_witness :
  let s := step (SearchInput (lit "ri"))
             (tick 500 (step (SearchInput (lit "r")) (initial sample_dom 0))) in
  (List.length (timers (env s)) <= 1)%nat
  /\ forall tm, In tm (timers (env s)) -> searchTimer s = Some (tid tm).
Proof.
  apply (one_pending_timer
           (step (SearchInput (lit "ri"))
              (tick 500 (step (SearchInput (lit "r")) (initial sample_dom 0))))).
  apply loop_handle; [|reflexivity]. apply loop_tick.
  apply loop_handle; [|reflexivity]. apply loop_initial.
Defined.

(** An edit leaves the timers armed for its value, whether the timer it
    clears was due or not. *)
Lemma search_input_armed_at (v : jsstring) (s : State) :
  one_timer s ->
  let s' := step (SearchInput v) s in
  armed_at (now (env s)) v s'
  /\ now (env s') = now (env s)
  /\ requests (env s') = requests (env s)
  /\ suggestions_children (dom s') = suggestions_children (dom s)
  /\ storeNameInput_value (dom s') = storeNameInput_value (dom s)
  /\ expInput_value (dom s') = expInput_value (dom s).
Proof.
  unfold one_timer, armed_at, step, productSearch_input.
  open_state s. cbn.
  destruct tms as [|tm [|tm' tms]]; [| |contradiction].
  - intros _. destruct st as [id|]; cbn; destruct (trim v) as [|c q]; cbn;
      repeat split; eauto.
  - intros ->. cbn.
    destruct (trim v) as [|c q]; cbn; rewrite ?Pos.eqb_refl; cbn;
      repeat split; eauto.
Qed.

(** The timer of an edit made at [t0] does not fire before [t0] plus the
    quiet period; once that time has come, firing it issues the request
    of the edit and leaves nothing pending. *)
Lemma fire_due_armed_at (t0 : N) (v : jsstring) (s : State) :
  armed_at t0 v s ->
  (now (env s) < t0 + quiet -> fire_due s = s)
  /\ (t0 + quiet <= now (env s) ->
      timers (env (fire_due s)) = []
      /\ requests (env (fire_due s)) = requests (env s) ++ search_request_of v
      /\ dom (fire_due s) = dom s
      /\ selectedProduct (fire_due s) = selectedProduct s).
Proof.
  unfold armed_at, search_request_of, fire_due, fire, searchTimer_callback, quiet.
  open_state s. cbn.
  destruct (trim v) as [|c q].
  - intros ->. cbn. rewrite app_nil_r. auto.
  - intros (id & -> & ->). cbn. split; intro Hnow.
    + destruct (N.leb_spec (t0 + 180) n); [lia|reflexivity].
    + destruct (N.leb_spec (t0 + 180) n); [|lia].
      cbn. destruct (encodeURIComponent (c :: q)); cbn; rewrite Pos.eqb_refl; cbn;
        rewrite ?app_nil_r; auto.
Qed.

Lemma round_effect (v : jsstring) (g : N) (fires : bool) (s : State) :
  one_timer s ->
  let s1 := tick g (step (SearchInput v) s) in
  let s2 := if fires then fire_due s1 else s1 in
  one_timer s2
  /\ requests (env s2) = requests (env s) ++ round_request (v, g, fires).
Proof.
  intros Hok s1 s2.
  destruct (search_input_armed_at v s Hok) as (Harmed & Hnow & Hreq & _).
  assert (Harmed1 : armed_at (now (env s)) v s1) by exact Harmed.
  assert (Hnow1 : now (env s1) = now (env s) + g).
  { change (now (env s1)) with (now (env (step (SearchInput v) s)) + g).
    rewrite Hnow. reflexivity. }
  assert (Hreq1 : requests (env s1) = requests (env s)) by exact Hreq.
  assert (Hok1 : one_timer s1).
  { unfold one_timer. unfold armed_at in Harmed1.
    destruct (trim v); [rewrite Harmed1; exact I|].
    destruct Harmed1 as (id & Hid & ->). exact Hid. }
  unfold s2, round_request. destruct fires; cbn [andb].
  - destruct (fire_due_armed_at _ v s1 Harmed1) as [Hearly Hlate].
    destruct (N.leb_spec quiet g) as [Hg|Hg].
    + destruct Hlate as (Htm & Hr & _); [lia|].
      split; [unfold one_timer; rewrite Htm; exact I|].
      rewrite Hr, Hreq1. reflexivity.
    + rewrite Hearly by lia. split; [exact Hok1|].
      rewrite Hreq1, app_nil_r. reflexivity.
  - split; [exact Hok1|]. rewrite Hreq1, app_nil_r. reflexivity.
Qed.

Lemma rounds_requests (rs : list (jsstring * N * bool)) :
  forall s : State,
    one_timer s ->
    requests (env (rounds rs s)) = requests (env s) ++ flat_map round_request rs.
Proof.
  induction rs as [|[[v g] fires] rest IH]; intros s Hok.
  - cbn. rewrite app_nil_r. reflexivity.
  - destruct (round_effect v g fires s Hok) as [Hok' Hreq].
    cbn [rounds flat_map]. rewrite (IH _ Hok'), Hreq, <- app_assoc.
    reflexivity.
Qed.

(** X3. An edit gets its search request exactly when its timer fires
    before the next edit. For any rounds of typing from a state the page
    can be in (each an edit, a wait, and the due timers firing or being
    late), the requests issued are, in order, those of the edits whose
    wait was a quiet period or more and whose timer did fire then; a
    timer that is late is cleared by the next edit like one that is not
    due. *)
Theorem search_rounds (s : State) (rs : list (jsstring * N * bool)) :
  loop_reachable s ->
  requests (env (rounds rs s)) = requests (env s) ++ flat_map round_request rs.
Proof.
  intro Hreach. apply rounds_requests, loop_reachable_one_timer, Hreach.
Qed.

Lemma search_rounds_witness :
  requests (env (rounds [(lit "r", 100, true); (lit "ri", 180, true);
                         (lit "ric", 400, false); (lit "rice", 200, true)]
                   (initial sample_dom 0)))
  = [FetchGet (lit "/api/products?q=ri"); FetchGet (lit "/api/products?q=rice")].
Proof.
  exact (search_rounds (initial sample_dom 0)
           [(lit "r", 100, true); (lit "ri", 180, true);
            (lit "ric", 400, false); (lit "rice", 200, true)]
           (loop_initial sample_dom 0)).
Defined.

(** X4. Selecting a product does not clear the timer of the search: when
    a suggestion is clicked any time [g] after an edit whose timer has
    not fired, the request of that edit is still issued when the timer
    fires, a quiet period or more after the edit, following the preview
    load of the selection; and when its answer comes with products, the
    suggestion list is shown again although a product is selected. *)
Theorem select_keeps_pending_search
  (s : State) (v : jsstring) (i : nat) (txt : jsstring) (p : Product)
  (items : list Product) (g T : N) :
  loop_reachable s ->
  nth_error (suggestions_children (dom s)) i = Some (txt, p) ->
  quiet <= g + T ->
  items <> [] ->
  let s1 := step (SuggestionClick i) (tick g (step (SearchInput v) s)) in
  let s2 := fire_due (tick T s1) in
  let s3 := step (SearchResolved items) s2 in
  requests (env s2)
  = requests (env s)
      ++ [ImageGet (preview_url p (storeNameInput_value (dom s))
                                  (expInput_value (dom s)))]
      ++ search_request_of v
  /\ selectedProduct s3 = Some p
  /\ suggestions_display (dom s3) = lit "block".
Proof.
  intros Hreach Hrow HT Hitems s1 s2 s3.
  destruct (search_input_armed_at v s (loop_reachable_one_timer s Hreach))
    as (Harmed & Hnow & Hreq & Hrows & Hstore & Hexp).
  set (s0 := step (SearchInput v) s) in *.
  assert (Hs1 : s1 = selectProduct p (tick g s0)).
  { unfold s1. cbn [step]. change (suggestions_children (dom (tick g s0)))
      with (suggestions_children (dom s0)).
    rewrite Hrows, Hrow. reflexivity. }
  assert (Harmed2 : armed_at (now (env s)) v (tick T s1))
    by (rewrite Hs1; exact Harmed).
  assert (Hnow2 : now (env (tick T s1)) = now (env s) + g + T).
  { rewrite Hs1.
    change (now (env (tick T (selectProduct p (tick g s0)))))
      with (now (env s0) + g + T).
    rewrite Hnow. reflexivity. }
  destruct (proj2 (fire_due_armed_at _ v _ Harmed2)) as (_ & Hr & Hdom & Hsel);
    [lia|].
  fold s2 in Hr, Hdom, Hsel.
  split; [|split].
  - rewrite Hr, Hs1.
    change (requests (env (tick T (selectProduct p (tick g s0)))))
      with (requests (env s0)
            ++ [ImageGet (preview_url p (storeNameInput_value (dom s0))
                                        (expInput_value (dom s0)))]).
    rewrite Hreq, Hstore, Hexp, <- app_assoc. reflexivity.
  - unfold s3. cbn [step]. unfold search_resolved.
    destruct items as [|p0 items]; [congruence|].
    change (selectedProduct s2 = Some p).
    rewrite Hsel, Hs1. reflexivity.
  - unfold s3. cbn [step]. unfold search_resolved.
    destruct items; [congruence|]. reflexivity.
Qed.

Lemma select_keeps_pending_search_witness :
  let s := step (SearchResolved [sample_product]) (initial sample_dom 0) in
  let s1 := step (SuggestionClick 0) (tick 120 (step (SearchInput (lit "ric")) s)) in
  let s2 := fire_due (tick 75 s1) in
  let s3 := step (SearchResolved [sample_product]) s2 in
  requests (env s2)
  = [ImageGet (lit "/preview?barcode=8901&store=Sri+Vel&exp=");
     FetchGet (lit "/api/products?q=ric")]
  /\ selectedProduct s3 = Some sample_product
  /\ suggestions_display (dom s3) = lit "block".
Proof.
  refine (select_keeps_pending_search
            (step (SearchResolved [sample_product]) (initial sample_dom 0))
            (lit "ric") 0 (row_text sample_product) sample_product
            [sample_product] 120 75 _ _ _ _).
  - apply loop_handle; [apply loop_initial|reflexivity].
  - reflexivity.
  - vm_compute. discriminate.
  - discriminate.
Defined.


(** ** Further properties of the preview and of the print handler *)

Lemma fold_fire_frame (l : list timer) :
  forall s : State,
    dom (fold_left (fun s tm => fire tm s) l s) = dom s
    /\ selectedProduct (fold_left (fun s tm => fire tm s) l s) = selectedProduct s.
Proof.
  induction l as [|tm l IH]; intro s; [split; reflexivity|].
  cbn [fold_left]. destruct (IH (fire tm s)) as [Hd Hs]. rewrite Hd, Hs.
  unfold fire, searchTimer_callback.
  destruct (encodeURIComponent (query tm)); split; reflexivity.
Qed.

Lemma updatePreview_consistent (s : State) :
  (selectedProduct s = None -> preview_consistent s) ->
  preview_consistent (updatePreview s).
Proof.
  unfold preview_consistent, updatePreview.
  destruct (selectedProduct s) as [p|] eqn:Hsel; cbn.
  - intros _. rewrite Hsel. split; reflexivity.
  - intro H. rewrite Hsel. exact I.
Qed.

Lemma step_preview_consistent (ev : event) (s : State) :
  preview_consistent s -> preview_consistent (step ev s).
Proof.
  intro H. destruct ev as [v|v|v|v|i| |t|items|fetched]; cbn [step].
  - unfold preview_consistent, productSearch_input. cbn.
    destruct (searchTimer s); cbn; destruct (truthy (trim v)); exact I.
  - apply updatePreview_consistent. intro Hsel.
    unfold preview_consistent. rewrite Hsel. exact I.
  - apply updatePreview_consistent. intro Hsel.
    unfold preview_consistent. rewrite Hsel. exact I.
  - exact H.
  - destruct (nth_error (suggestions_children (dom s)) i) as [[txt p]|];
      [|exact H].
    unfold selectProduct. apply updatePreview_consistent. discriminate.
  - destruct (printBtn_disabled (dom s)); [exact H|].
    revert H. unfold preview_consistent, printBtn_click.
    destruct (selectedProduct s) as [p|] eqn:Hsel; cbn; rewrite Hsel;
      exact (fun H => H).
  - revert H. unfold preview_consistent, advance.
    cbn [selectedProduct dom with_env set_env].
    destruct (fold_fire_frame
                (filter (fun tm => due tm <=? t) (timers (env s))) s) as [Hd Hs].
    rewrite Hd, Hs. exact (fun H => H).
  - revert H. unfold preview_consistent, search_resolved.
    destruct items; exact (fun H => H).
  - revert H. unfold preview_consistent, print_settled, print_try, print_catch.
    destruct fetched as [e|[rok [e|data]]]; cbn; try exact (fun H => H).
    destruct (rok && ok data); exact (fun H => H).
Qed.

(** X6. In every state the page can be in, as long as a product is
    selected the source of the preview image is the address of the
    preview of that product for the present contents of the store-name
    and expiry fields, and the metadata text is that of the product. *)
Theorem preview_follows_selection (s : State) (p : Product) :
  reachable s ->
  selectedProduct s = Some p ->
  previewImg_src (dom s)
  = Some (preview_url p (storeNameInput_value (dom s)) (expInput_value (dom s)))
  /\ metaDiv_textContent (dom s) = meta_text p.
Proof.
  intros Hreach Hsel.
  assert (H : preview_consistent s).
  { clear Hsel. induction Hreach as [d t|ev s _ IH]; [exact I|].
    apply step_preview_consistent, IH. }
  unfold preview_consistent in H. rewrite Hsel in H. exact H.
Qed.

Lemma preview_follows_selection_witness :
  let s := run [SearchResolved [sample_product]; SuggestionClick 0;
                ExpInput (lit " 12/26 "); CountInput (lit "3"); PrintClick]
             (initial sample_dom 0) in
  previewImg_src (dom s)
  = Some (lit "/preview?barcode=8901&store=Sri+Vel&exp=12%2F26")
  /\ metaDiv_textContent (dom s)
     = lit "Barcode: 8901 | QTY: 1 kg | MRP: " ++ [8377] ++ lit "60.5 | RP: "
       ++ [8377] ++ lit "55.25".
Proof.
  refine (preview_follows_selection
            (run [SearchResolved [sample_product]; SuggestionClick 0;
                  ExpInput (lit " 12/26 "); CountInput (lit "3"); PrintClick]
               (initial sample_dom 0))
            sample_product _ _).
  - apply reachable_run. constructor.
  - reflexivity.
Defined.

(** X7. The search box can be edited while a print is pending. When the
    print then settles the button is enabled and labelled "Print"
    although no product is selected any more; a click on it does
    nothing. *)
Theorem print_settles_after_edit
  (s : State) (p : Product) (v : jsstring) (fetched : exn + Response) :
  selectedProduct s = Some p ->
  let s' := step (PrintSettled fetched)
              (step (SearchInput v) (printBtn_click s)) in
  selectedProduct s' = None
  /\ printBtn_disabled (dom s') = false
  /\ printBtn_textContent (dom s') = lit "Print"
  /\ step PrintClick s' = s'.
Proof.
  intros Hsel s'.
  assert (Hnone : selectedProduct s' = None).
  { subst s'. cbn [step]. unfold print_settled, print_try, print_catch.
    destruct fetched as [e|[rok [e|data]]]; cbn;
      try destruct (rok && ok data); cbn;
      unfold productSearch_input; cbn;
      destruct (searchTimer (printBtn_click s)); cbn;
      destruct (truthy (trim v)); reflexivity. }
  split; [exact Hnone|]. split; [reflexivity|]. split; [reflexivity|].
  cbn [step]. 
  change (printBtn_disabled (dom s')) with false. cbn iota.
  unfold printBtn_click. rewrite Hnone. reflexivity.
Qed.

Lemma print_settles_after_edit_witness :
  let s' := step (PrintSettled (inl {| message := lit "Failed to fetch" |}))
              (step (SearchInput (lit "da")) (printBtn_click sample_selected)) in
  selectedProduct s' = None
  /\ printBtn_disabled (dom s') = false
  /\ printBtn_textContent (dom s') = lit "Print"
  /\ step PrintClick s' = s'.
Proof.
  exact (print_settles_after_edit sample_selected sample_product (lit "da")
           (inl {| message := lit "Failed to fetch" |}) eq_refl).
Defined.

(** ** Further properties of the library functions *)

Lemma span_digits_fst_nil (s : jsstring) :
  fst (span_digits s) = [] <-> match s with c :: _ => is_digit c | [] => false end = false.
Proof.
  destruct s as [|c r]; cbn; [tauto|].
  destruct (is_digit c); [|tauto].
  destruct (span_digits r). cbn. split; discriminate.
Qed.

Lemma parse_digits_NaN_iff (sign : Z) (s2 : jsstring) :
  match fst (span_digits s2) with
  | [] => NaN
  | c :: l => Num (sign * digits_value (c :: l))
  end = NaN
  <-> match s2 with c :: _ => is_digit c | [] => false end = false.
Proof.
  rewrite <- span_digits_fst_nil.
  destruct (fst (span_digits s2)); split; congruence.
Qed.

(** [parseInt] gives NaN exactly when no digit follows the leading white
    space and sign. *)
Lemma parseInt10_NaN_iff (s : jsstring) :
  parseInt10 s = NaN <-> starts_with_integer s = false.
Proof.
  unfold parseInt10, starts_with_integer.
  destruct (trimStart s) as [|c r]; [cbn; tauto|].
  destruct c as [|p]; [apply parse_digits_NaN_iff|].
  repeat (destruct p as [p|p|]; try apply parse_digits_NaN_iff).
Qed.

Lemma span_digits_digits (s : jsstring) :
  Forall (fun c => is_digit c = true) (fst (span_digits s)).
Proof.
  induction s as [|c r IH]; cbn; [constructor|].
  destruct (is_digit c) eqn:Hc; [|constructor].
  destruct (span_digits r) as [ds rest]. cbn in *. constructor; assumption.
Qed.

Lemma fold_digits_bound (ds : jsstring) :
  Forall (fun c => is_digit c = true) ds ->
  forall acc : Z,
    (0 <= acc)%Z ->
    (0 <= fold_left (fun a d => 10 * a + (Z.of_N d - 48)) ds acc
     < (acc + 1) * 10 ^ Z.of_nat (List.length ds))%Z.
Proof.
  induction 1 as [|d ds Hd _ IH]; intros acc Hacc.
  - cbn. lia.
  - cbn [fold_left List.length].
    unfold is_digit in Hd. apply andb_prop in Hd. destruct Hd as [H1 H2].
    apply N.leb_le in H1, H2.
    specialize (IH (10 * acc + (Z.of_N d - 48))%Z ltac:(lia)).
    rewrite Nat2Z.inj_succ, Z.pow_succ_r by lia.
    assert (Hp : (0 < 10 ^ Z.of_nat (List.length ds))%Z)
      by (apply Z.pow_pos_nonneg; lia).
    nia.
Qed.

(** A run of [n] digits is read as a number below 10^n. *)
Lemma digits_value_bound (ds : jsstring) :
  Forall (fun c => is_digit c = true) ds ->
  (0 <= digits_value ds < 10 ^ Z.of_nat (List.length ds))%Z.
Proof.
  intro H. pose proof (fold_digits_bound ds H 0%Z ltac:(lia)) as Hb.
  unfold digits_value. lia.
Qed.

Lemma parse_digits_bound (sign : Z) (s2 : jsstring) (z : Z) :
  sign = 1%Z \/ sign = (-1)%Z ->
  match fst (span_digits s2) with
  | [] => NaN
  | c :: l => Num (sign * digits_value (c :: l))
  end = Num z ->
  (Z.abs z < 10 ^ Z.of_nat (List.length (fst (span_digits s2))))%Z.
Proof.
  intros Hsign H.
  pose proof (digits_value_bound _ (span_digits_digits s2)) as Hb.
  destruct (fst (span_digits s2)) as [|c l]; [discriminate|].
  injection H as <-. destruct Hsign as [-> | ->]; lia.
Qed.

(** The number [parseInt] gives is below 10^n in absolute value when it
    has read [n] digits. *)
Lemma parseInt10_bound (s : jsstring) (z : Z) :
  parseInt10 s = Num z ->
  (Z.abs z < 10 ^ Z.of_nat (List.length (digit_run s)))%Z.
Proof.
  unfold parseInt10, digit_run.
  destruct (trimStart s) as [|c r]; [discriminate|].
  destruct c as [|p]; [apply parse_digits_bound; auto|].
  repeat (destruct p as [p|p|]; try (apply parse_digits_bound; auto)).
Qed.

(** X8. With a product selected and a count field of at most 15 digits,
    a click on the print button issues one request whose count is never
    a number below 1: it is an integer of at least 1 (and below 10^15,
    so that it is written with all its digits), or NaN (written null);
    and it is NaN exactly when the count field is not empty and no digit
    follows its leading white space and sign. *)
Theorem printBtn_click_count_range (s : State) (p : Product) :
  selectedProduct s = Some p ->
  (List.length (digit_run (countInput_value (dom s))) <= 15)%nat ->
  exists c,
    requests (env (printBtn_click s))
    = requests (env s)
        ++ [FetchPost (lit "/api/print") (lit "application/json")
              (JSON_stringify
                 {| payload_barcode := barcode p;
                    payload_count := c;
                    payload_store_name := trim (storeNameInput_value (dom s));
                    payload_exp := trim (expInput_value (dom s)) |})]
    /\ (c = NaN \/ exists z, c = Num z /\ (1 <= z < 10 ^ 15)%Z)
    /\ (c = NaN <->
        countInput_value (dom s) <> []
        /\ starts_with_integer (countInput_value (dom s)) = false).
Proof.
  intros Hsel Hlen.
  exists (Math_max (Num 1)
            (parseInt10 (or_else (countInput_value (dom s)) (lit "1")))).
  split; [unfold printBtn_click; rewrite Hsel; reflexivity|].
  set (n := parseInt10 (or_else (countInput_value (dom s)) (lit "1"))).
  split.
  - destruct n as [|z0] eqn:Hn; [left; reflexivity|].
    right. exists (Z.max 1 z0). split; [reflexivity|].
    assert (Hz0 : (Z.abs z0 < 10 ^ 15)%Z).
    { unfold n, or_else in Hn.
      destruct (countInput_value (dom s)) as [|c r] eqn:Hv; cbn [truthy] in Hn.
      - injection Hn as <-. reflexivity.
      - apply parseInt10_bound in Hn.
        apply Z.lt_le_trans with (1 := Hn).
        apply Z.pow_le_mono_r; lia. }
    lia.
  - assert (Hn : Math_max (Num 1) n = NaN <-> n = NaN)
      by (destruct n; cbn; split; congruence).
    rewrite Hn. unfold n. rewrite parseInt10_NaN_iff.
    unfold or_else. destruct (countInput_value (dom s)) as [|c r]; cbn [truthy].
    + split; [discriminate|]. intros [H _]. congruence.
    + split; [intro H; split; [discriminate|exact H]|intros [_ H]; exact H].
Qed.

Lemma printBtn_click_count_range_witness :
  exists c,
    requests (env (printBtn_click (step (CountInput (lit " 12 pcs")) sample_selected)))
    = requests (env sample_selected)
        ++ [FetchPost (lit "/api/print") (lit "application/json")
              (JSON_stringify
                 {| payload_barcode := lit "8901";
                    payload_count := c;
                    payload_store_name := lit "Sri Vel";
                    payload_exp := [] |})]
    /\ (c = NaN \/ exists z, c = Num z /\ (1 <= z < 10 ^ 15)%Z)
    /\ (c = NaN <->
        lit " 12 pcs" <> [] /\ starts_with_integer (lit " 12 pcs") = false).
Proof.
  refine (printBtn_click_count_range
            (step (CountInput (lit " 12 pcs")) sample_selected)
            sample_product eq_refl _).
  vm_compute. lia.
Defined.

(** Induction on a string two code units at a time, as the encoders
    read surrogate pairs. *)
Lemma jsstring_pair_ind (P : jsstring -> Prop) :
  P [] ->
  (forall c r, P r -> P (tl r) -> P (c :: r)) ->
  forall s, P s.
Proof.
  intros Hnil Hcons s.
  assert (H : P s /\ P (tl s)).
  { induction s as [|c r [IH1 IH2]]; [split; exact Hnil|].
    split; [apply Hcons; assumption|exact IH1]. }
  exact (proj1 H).
Qed.

Lemma encodeURIComponent_ill_formed (s : jsstring) :
  isWellFormed s = false -> encodeURIComponent s = None.
Proof.
  induction s as [|c r IH1 IH2] using jsstring_pair_ind; [discriminate|].
  cbn [isWellFormed]. unfold encodeURIComponent; fold encodeURIComponent.
  destruct (uri_unreserved c) eqn:Hun.
  - destruct (ascii_not_surrogate c (uri_unreserved_ascii c Hun)) as [Ht Hl].
    rewrite Ht, Hl. intro H. rewrite (IH1 H). reflexivity.
  - destruct (is_trail c); [reflexivity|].
    destruct (is_lead c).
    + destruct r as [|d r']; [reflexivity|].
      destruct (is_trail d); [|reflexivity].
      cbn. intro H. cbn in IH2. rewrite (IH2 H). reflexivity.
    + intro H. rewrite (IH1 H). reflexivity.
Qed.

(** X9. The timer callback issues its request exactly when the query is
    well formed: on a query with a surrogate outside a pair it leaves
    the state as it is, however the rest of the query reads. *)
Theorem searchTimer_callback_well_formed (q : jsstring) (s : State) :
  (isWellFormed q = true ->
     exists u,
       encodeURIComponent q = Some u
       /\ requests (env (searchTimer_callback q s))
          = requests (env s) ++ [FetchGet (lit "/api/products?q=" ++ u)])
  /\ (isWellFormed q = false -> searchTimer_callback q s = s).
Proof.
  unfold searchTimer_callback. split.
  - intro H. destruct (encodeURIComponent_isWellFormed q H) as [u Hu].
    exists u. rewrite Hu. split; reflexivity.
  - intro H. rewrite (encodeURIComponent_ill_formed q H). reflexivity.
Qed.

Lemma searchTimer_callback_well_formed_witness :
  (exists u,
     encodeURIComponent (lit "dal " ++ [55357; 56832]) = Some u
     /\ requests (env (searchTimer_callback (lit "dal " ++ [55357; 56832])
                         sample_selected))
        = requests (env sample_selected)
            ++ [FetchGet (lit "/api/products?q=" ++ u)])
  /\ searchTimer_callback (lit "dal " ++ [56832; 55357]) sample_selected
     = sample_selected.
Proof.
  split.
  - exact (proj1 (searchTimer_callback_well_formed
                    (lit "dal " ++ [55357; 56832]) sample_selected) eq_refl).
  - exact (proj2 (searchTimer_callback_well_formed
                    (lit "dal " ++ [56832; 55357]) sample_selected) eq_refl).
Defined.

(** ** The shape of the addresses *)

Lemma uri_unreserved_not_delimiter (c : codeunit) :
  uri_unreserved c = true -> is_delimiter c = false.
Proof.
  intro Hun. destruct (is_delimiter c) eqn:Hd; [|reflexivity].
  delimiter_cases Hd; discriminate Hun.
Qed.

Lemma form_unreserved_not_delimiter (c : codeunit) :
  form_unreserved c = true -> is_delimiter c = false.
Proof.
  intro Hun. destruct (is_delimiter c) eqn:Hd; [|reflexivity].
  delimiter_cases Hd; discriminate Hun.
Qed.

Lemma hex_upper_not_delimiter (d : N) : is_delimiter (hex_upper d) = false.
Proof.
  destruct (is_delimiter (hex_upper d)) eqn:Hd; [|reflexivity].
  unfold hex_upper in Hd. destruct (N.ltb_spec d 10);
    delimiter_cases Hd; lia.
Qed.

Lemma percent_utf8_not_delimiter (cp : N) (c : codeunit) :
  In c (percent_utf8 cp) -> is_delimiter c = false.
Proof.
  unfold percent_utf8. intro H. apply in_flat_map in H.
  destruct H as (b & _ & [<-|[<-|[<-|[]]]]);
    [reflexivity|apply hex_upper_not_delimiter..].
Qed.

(** What [encodeURIComponent] gives holds no delimiter. *)
Lemma encodeURIComponent_not_delimiter (q : jsstring) :
  forall u c,
    encodeURIComponent q = Some u -> In c u -> is_delimiter c = false.
Proof.
  induction q as [|a r IH1 IH2] using jsstring_pair_ind; intros u c.
  - intros [= <-] [].
  - unfold encodeURIComponent; fold encodeURIComponent.
    destruct (uri_unreserved a) eqn:Hun.
    + destruct (encodeURIComponent r) as [u'|]; [|discriminate].
      intros [= <-] [<-|Hin];
        [exact (uri_unreserved_not_delimiter a Hun)|exact (IH1 u' c eq_refl Hin)].
    + destruct (is_trail a); [discriminate|].
      destruct (is_lead a).
      * destruct r as [|d r']; [discriminate|].
        destruct (is_trail d); [|discriminate].
        cbn in IH2.
        destruct (encodeURIComponent r') as [u'|]; [|discriminate].
        intros [= <-] Hin. apply in_app_or in Hin. destruct Hin as [Hin|Hin];
          [exact (percent_utf8_not_delimiter _ c Hin)|exact (IH2 u' c eq_refl Hin)].
      * destruct (encodeURIComponent r) as [u'|]; [|discriminate].
        intros [= <-] Hin. apply in_app_or in Hin. destruct Hin as [Hin|Hin];
          [exact (percent_utf8_not_delimiter _ c Hin)|exact (IH1 u' c eq_refl Hin)].
Qed.

(** What the form serializer gives for a name or a value holds no
    delimiter but the + that stands for a space. *)
Lemma form_encode_not_delimiter (s : jsstring) :
  forall c, In c (form_encode s) -> is_delimiter c = false \/ c = 43.
Proof.
  induction s as [|a r IH1 IH2] using jsstring_pair_ind; intro c.
  - intros [].
  - cbn [form_encode].
    destruct (form_unreserved a) eqn:Hun.
    + intros [<-|Hin];
        [left; exact (form_unreserved_not_delimiter a Hun)|exact (IH1 c Hin)].
    + destruct (a =? 32).
      { intros [<-|Hin]; [right; reflexivity|exact (IH1 c Hin)]. }
      destruct (is_trail a).
      { intro Hin. apply in_app_or in Hin. destruct Hin as [Hin|Hin];
          [left; exact (percent_utf8_not_delimiter _ c Hin)|exact (IH1 c Hin)]. }
      destruct (is_lead a).
      * destruct r as [|d r'].
        { intro Hin. left. exact (percent_utf8_not_delimiter _ c Hin). }
        cbn in IH2.
        destruct (is_trail d); intro Hin; apply in_app_or in Hin;
          destruct Hin as [Hin|Hin];
          try (left; exact (percent_utf8_not_delimiter _ c Hin));
          [exact (IH2 c Hin)|exact (IH1 c Hin)].
      * intro Hin. apply in_app_or in Hin. destruct Hin as [Hin|Hin];
          [left; exact (percent_utf8_not_delimiter _ c Hin)|exact (IH1 c Hin)].
Qed.

Lemma occurrences_app (c : codeunit) (a b : jsstring) :
  occurrences c (a ++ b) = (occurrences c a + occurrences c b)%nat.
Proof. apply count_occ_app. Qed.

Lemma occurrences_encodeURIComponent (q u : jsstring) (c : codeunit) :
  encodeURIComponent q = Some u ->
  is_delimiter c = true ->
  occurrences c u = 0%nat.
Proof.
  intros Hu Hc. apply count_occ_not_In. intro Hin.
  rewrite (encodeURIComponent_not_delimiter q u c Hu Hin) in Hc. discriminate.
Qed.

Lemma occurrences_form_encode (s : jsstring) (c : codeunit) :
  is_delimiter c = true ->
  c <> 43 ->
  occurrences c (form_encode s) = 0%nat.
Proof.
  intros Hc Hplus. apply count_occ_not_In. intro Hin.
  destruct (form_encode_not_delimiter s c Hin) as [H|H]; congruence.
Qed.

Lemma search_url_occurrences (q u : jsstring) :
  encodeURIComponent q = Some u ->
  let url := lit "/api/products?q=" ++ u in
  occurrences 63 url = 1%nat
  /\ occurrences 61 url = 1%nat
  /\ occurrences 38 url = 0%nat
  /\ occurrences 35 url = 0%nat
  /\ occurrences 43 url = 0%nat
  /\ occurrences 32 url = 0%nat.
Proof.
  intros Hu url. subst url.
  rewrite !occurrences_app,
    !(occurrences_encodeURIComponent q u _ Hu) by reflexivity.
  repeat split.
Qed.

(** X10. Whatever was typed in the search box, the address of the
    request the timer callback issues has one ? and one = (those of
    "?q=") and no & # + or space: the typed text cannot end the
    parameter q or add another one. *)
Theorem search_url_shape (q : jsstring) (s : State) (url : jsstring) :
  requests (env (searchTimer_callback q s)) = requests (env s) ++ [FetchGet url] ->
  occurrences 63 url = 1%nat
  /\ occurrences 61 url = 1%nat
  /\ occurrences 38 url = 0%nat
  /\ occurrences 35 url = 0%nat
  /\ occurrences 43 url = 0%nat
  /\ occurrences 32 url = 0%nat.
Proof.
  unfold searchTimer_callback.
  destruct (encodeURIComponent q) as [u|] eqn:Hu; cbn; intro H.
  - apply app_inv_head in H. injection H as <-.
    exact (search_url_occurrences q u Hu).
  - exfalso. apply (f_equal (@List.length request)) in H.
    rewrite length_app in H. cbn in H. lia.
Qed.

Lemma search_url_shape_witness :
  occurrences 63 (lit "/api/products?q=a%26b%3Dc%20d%3F%23%2B") = 1%nat
  /\ occurrences 38 (lit "/api/products?q=a%26b%3Dc%20d%3F%23%2B") = 0%nat.
Proof.
  pose proof (search_url_shape (lit "a&b=c d?#+") sample_selected
                (lit "/api/products?q=a%26b%3Dc%20d%3F%23%2B") eq_refl) as H.
  destruct H as (H1 & _ & H2 & _). split; assumption.
Defined.

Lemma preview_url_occurrences (p : Product) (store exp : jsstring) :
  let url := preview_url p store exp in
  occurrences 63 url = 1%nat
  /\ occurrences 61 url = 3%nat
  /\ occurrences 38 url = 2%nat
  /\ occurrences 35 url = 0%nat
  /\ occurrences 32 url = 0%nat.
Proof.
  cbv zeta. unfold preview_url.
  rewrite !occurrences_app, !occurrences_form_encode
    by (reflexivity || discriminate).
  repeat split.
Qed.

(** X11. Whatever the barcode of the selected product and the contents
    of the store-name and expiry fields, the address [updatePreview]
    gives the preview image has one ?, three = and two & and neither #
    nor space: it always reads as the three parameters barcode, store
    and exp. *)
Theorem preview_url_shape (s : State) (p : Product) :
  selectedProduct s = Some p ->
  exists url,
    previewImg_src (dom (updatePreview s)) = Some url
    /\ occurrences 63 url = 1%nat
    /\ occurrences 61 url = 3%nat
    /\ occurrences 38 url = 2%nat
    /\ occurrences 35 url = 0%nat
    /\ occurrences 32 url = 0%nat.
Proof.
  intro Hsel.
  exists (preview_url p (storeNameInput_value (dom s)) (expInput_value (dom s))).
  split; [exact (proj2 (updatePreview_selected s p Hsel))|].
  apply preview_url_occurrences.
Qed.

Lemma preview_url_shape_witness :
  exists url,
    previewImg_src
      (dom (updatePreview (step (StoreInput (lit "a&b=c #1")) sample_selected)))
    = Some url
    /\ occurrences 63 url = 1%nat
    /\ occurrences 61 url = 3%nat
    /\ occurrences 38 url = 2%nat
    /\ occurrences 35 url = 0%nat
    /\ occurrences 32 url = 0%nat.
Proof.
  exact (preview_url_shape (step (StoreInput (lit "a&b=c #1")) sample_selected)
           sample_product eq_refl).
Defined.

(** ** The body of the print request determines the payload *)

Lemma unhex_hex_lower (d : N) : d < 16 -> unhex_lower (hex_lower d) = d.
Proof.
  intro H. unfold unhex_lower, hex_lower.
  destruct (N.ltb_spec d 10).
  - destruct (N.ltb_spec (48 + d) 58); lia.
  - destruct (N.ltb_spec (87 + d) 58); lia.
Qed.

Lemma read_unicode_escape (c : codeunit) (rest : jsstring) :
  c < 65536 ->
  read_string (unicode_escape c ++ rest)
  = option_map (push c) (read_string rest).
Proof.
  intro H. unfold unicode_escape, hex4_lower. cbn [app read_string].
  change (92 =? 34) with false. change (92 =? 92) with true.
  change (117 =? 117) with true. cbv iota.
  replace (unhex4 _ _ _ _) with c; [reflexivity|].
  unfold unhex4. rewrite !unhex_hex_lower by div_lia. div_lia.
Qed.

Lemma read_two_char_escape (x c : codeunit) (rest : jsstring) :
  x <> 117 ->
  unescape_char x = c ->
  read_string ([92; x] ++ rest) = option_map (push c) (read_string rest).
Proof.
  intros Hx <-. cbn [app read_string].
  change (92 =? 34) with false. change (92 =? 92) with true. cbv iota.
  destruct (N.eqb_spec x 117); [contradiction|reflexivity].
Qed.

Lemma read_plain (c : codeunit) (rest : jsstring) :
  (c =? 34) = false ->
  (c =? 92) = false ->
  read_string (c :: rest) = option_map (push c) (read_string rest).
Proof. intros H1 H2. cbn [read_string]. rewrite H1, H2. reflexivity. Qed.

Lemma surrogate_plain (c : codeunit) :
  is_lead c = true \/ is_trail c = true ->
  (c =? 34) = false /\ (c =? 92) = false /\ c < 65536.
Proof.
  unfold is_lead, is_trail. intros [H|H]; apply andb_prop in H;
    destruct H as [H1 H2]; apply N.leb_le in H1, H2;
    repeat split; try (apply N.eqb_neq); lia.
Qed.

(** Reading back a string written by [JSON.stringify] gives the string,
    and stops at its closing quote. *)
Lemma read_string_json_escape (s : jsstring) :
  forall rest,
    read_string (json_escape s ++ 34 :: rest) = Some (s, rest).
Proof.
  induction s as [|c r IH1 IH2] using jsstring_pair_ind; intro rest;
    [reflexivity|].
  cbn [json_escape].
  destruct (N.eqb_spec c 8) as [->|_];
    [rewrite <- app_assoc, (read_two_char_escape 98 8), IH1;
       [reflexivity|discriminate|reflexivity]|].
  destruct (N.eqb_spec c 9) as [->|_];
    [rewrite <- app_assoc, (read_two_char_escape 116 9), IH1;
       [reflexivity|discriminate|reflexivity]|].
  destruct (N.eqb_spec c 10) as [->|_];
    [rewrite <- app_assoc, (read_two_char_escape 110 10), IH1;
       [reflexivity|discriminate|reflexivity]|].
  destruct (N.eqb_spec c 12) as [->|_];
    [rewrite <- app_assoc, (read_two_char_escape 102 12), IH1;
       [reflexivity|discriminate|reflexivity]|].
  destruct (N.eqb_spec c 13) as [->|_];
    [rewrite <- app_assoc, (read_two_char_escape 114 13), IH1;
       [reflexivity|discriminate|reflexivity]|].
  destruct (N.eqb_spec c 34) as [->|H34];
    [rewrite <- app_assoc, (read_two_char_escape 34 34), IH1;
       [reflexivity|discriminate|reflexivity]|].
  destruct (N.eqb_spec c 92) as [->|H92];
    [rewrite <- app_assoc, (read_two_char_escape 92 92), IH1;
       [reflexivity|discriminate|reflexivity]|].
  apply N.eqb_neq in H34, H92.
  destruct (N.ltb_spec c 32) as [Hctl|_];
    [rewrite <- app_assoc, read_unicode_escape, IH1 by lia; reflexivity|].
  destruct (is_trail c) eqn:Ht.
  { destruct (surrogate_plain c (or_intror Ht)) as (_ & _ & Hc).
    rewrite <- app_assoc, read_unicode_escape, IH1 by exact Hc. reflexivity. }
  destruct (is_lead c) eqn:Hl.
  - destruct (surrogate_plain c (or_introl Hl)) as (_ & _ & Hc).
    destruct r as [|d r'].
    + rewrite read_unicode_escape by exact Hc. reflexivity.
    + destruct (is_trail d) eqn:Hd.
      * destruct (surrogate_plain d (or_intror Hd)) as (Hd1 & Hd2 & _).
        cbn [tl] in IH2. cbn [app].
        rewrite (read_plain c _ H34 H92), (read_plain d _ Hd1 Hd2), IH2.
        reflexivity.
      * rewrite <- app_assoc, read_unicode_escape, IH1 by exact Hc. reflexivity.
  - cbn [app]. rewrite (read_plain c _ H34 H92), IH1. reflexivity.
Qed.

Lemma uint_chars (d : Decimal.uint) (c : codeunit) :
  In c (lit (NilEmpty.string_of_uint d)) -> is_digit c = true.
Proof.
  unfold lit. induction d; cbn; try (intros [<-|H]; [reflexivity|auto]).
  intros [].
Qed.

(** An integer is written with digits and at most a minus sign. *)
Lemma Z_toString_chars (z : Z) (c : codeunit) :
  In c (Z_toString z) -> c = 45 \/ is_digit c = true.
Proof.
  assert (Hu : forall d, In c (lit (NilZero.string_of_uint d)) -> is_digit c = true).
  { intros d. destruct d; try apply (uint_chars _ c).
    unfold lit. cbn. intros [<-|[]]. reflexivity. }
  unfold Z_toString. destruct (Z.to_int z) as [d|d]; cbn [NilZero.string_of_int].
  - intro H. right. exact (Hu d H).
  - unfold lit. cbn [list_ascii_of_string map]. intros [<-|H].
    + left. reflexivity.
    + right. exact (Hu d H).
Qed.

Lemma json_number_chars (n : number) (c : codeunit) :
  In c (json_number n) -> c <> 44.
Proof.
  destruct n as [|z]; cbn [json_number].
  - unfold lit. cbn. intros [<-|[<-|[<-|[<-|[]]]]]; discriminate.
  - intro H. destruct (Z_toString_chars z c H) as [->|Hd]; [discriminate|].
    intros ->. discriminate Hd.
Qed.

Lemma read_string_literal (s rest : jsstring) :
  read_string (json_escape s ++ [34] ++ rest) = Some (s, rest).
Proof. exact (read_string_json_escape s rest). Qed.

(** Two texts cut at the first occurrence of [x] agree part by part. *)
Lemma split_at_first (x : codeunit) (a1 a2 r1 r2 : jsstring) :
  ~ In x a1 -> ~ In x a2 ->
  a1 ++ x :: r1 = a2 ++ x :: r2 ->
  a1 = a2 /\ r1 = r2.
Proof.
  revert a2. induction a1 as [|c a1 IH]; intros [|c2 a2] H1 H2 H; cbn in *.
  - injection H as H. split; [reflexivity|exact H].
  - injection H as Hc _. subst. exfalso. apply H2. left. reflexivity.
  - injection H as Hc _. subst. exfalso. apply H1. left. reflexivity.
  - injection H as Hc H. subst.
    destruct (IH a2) as [Ha Hr]; [tauto|tauto|exact H|].
    subst. split; reflexivity.
Qed.

(** X12. The body of the print request determines the strings put into
    it: two payloads that are written as the same text have the same
    barcode, store name and expiry, whatever characters these hold
    (quotes, commas, backslashes, control characters, surrogates), and
    their counts are written alike. *)
Theorem JSON_stringify_inj (p1 p2 : payload) :
  JSON_stringify p1 = JSON_stringify p2 ->
  payload_barcode p1 = payload_barcode p2
  /\ payload_store_name p1 = payload_store_name p2
  /\ payload_exp p1 = payload_exp p2
  /\ json_number (payload_count p1) = json_number (payload_count p2).
Proof.
  destruct p1 as [b1 c1 st1 e1], p2 as [b2 c2 st2 e2].
  unfold JSON_stringify, json_string.
  cbn [payload_barcode payload_count payload_store_name payload_exp].
  intro H.
  rewrite <- !app_assoc in H.
  repeat (apply app_inv_head in H).
  apply (f_equal read_string) in H.
  rewrite (read_string_literal b1), (read_string_literal b2) in H.
  injection H as Hb H.
  repeat (apply app_inv_head in H).
  apply (split_at_first 44 (json_number c1) (json_number c2)) in H;
    [|intro Hin; exact (json_number_chars _ 44 Hin eq_refl)..].
  destruct H as [Hc H].
  strip_heads H.
  apply (f_equal read_string) in H.
  rewrite (read_string_json_escape st1), (read_string_json_escape st2) in H.
  injection H as Hst H.
  strip_heads H.
  apply (f_equal read_string) in H.
  rewrite (read_string_json_escape e1), (read_string_json_escape e2) in H.
  injection H as He.
  repeat split; assumption.
Qed.

Lemma JSON_stringify_inj_witness :
  JSON_stringify {| payload_barcode := lit "8901"; payload_count := Num 2;
                    payload_store_name := [34; 44; 34] ++ lit "exp" ++ [34; 58; 34];
                    payload_exp := [] |}
  <> JSON_stringify {| payload_barcode := lit "8901"; payload_count := Num 2;
                       payload_store_name := [];
                       payload_exp := [34; 44; 34] ++ lit "exp" ++ [34; 58; 34] |}.
Proof.
  intro H. apply JSON_stringify_inj in H.
  destruct H as (_ & H & _). discriminate H.
Defined.

(** ** The addresses determine what was typed *)

Lemma hex_upper_hex (d : N) :
  d < 16 -> is_hex (hex_upper d) = true /\ unhex (hex_upper d) = d.
Proof.
  intro H. unfold is_hex, is_digit, unhex, hex_upper.
  destruct (N.ltb_spec d 10).
  - replace (48 <=? 48 + d) with true by (symmetry; apply N.leb_le; lia).
    replace (48 + d <=? 57) with true by (symmetry; apply N.leb_le; lia).
    split; [reflexivity|].
    destruct (N.ltb_spec (48 + d) 58); lia.
  - replace (65 <=? 55 + d) with true by (symmetry; apply N.leb_le; lia).
    replace (55 + d <=? 70) with true by (symmetry; apply N.leb_le; lia).
    rewrite orb_true_r. split; [reflexivity|].
    destruct (N.ltb_spec (55 + d) 58); [lia|].
    destruct (N.ltb_spec (55 + d) 71); lia.
Qed.

Lemma percent_decode_percent (plus : bool) (bs : list N) :
  forall rest,
    Forall (fun b => b < 256) bs ->
    percent_decode plus (flat_map percent bs ++ rest)
    = bs ++ percent_decode plus rest.
Proof.
  induction bs as [|b bs IH]; intros rest Hb; [reflexivity|].
  inversion Hb as [|x l Hx Hl]; subst.
  cbn [flat_map percent app percent_decode].
  change (37 =? 37) with true. cbv iota.
  destruct (hex_upper_hex (b / 16)) as [Hh1 Hu1]; [div_lia|].
  destruct (hex_upper_hex (b mod 16)) as [Hh2 Hu2]; [div_lia|].
  rewrite Hh1, Hh2, Hu1, Hu2, (IH rest Hl). cbn [andb].
  f_equal. div_lia.
Qed.

Lemma utf8_octets (cp : N) : cp < 1114112 -> Forall (fun b => b < 256) (utf8 cp).
Proof.
  intro H. unfold utf8.
  destruct (N.ltb_spec cp 128); [repeat constructor; lia|].
  destruct (N.ltb_spec cp 2048); [repeat constructor; div_lia|].
  destruct (N.ltb_spec cp 65536); repeat constructor; div_lia.
Qed.

Lemma utf8_run_ascii (b : N) (bs : list N) :
  b < 128 -> utf8_run utf8_idle (b :: bs) = b :: utf8_run utf8_idle bs.
Proof.
  intro H. cbn [utf8_run utf8_step utf8_idle needed]. unfold utf8_begin.
  decide_tests. reflexivity.
Qed.

Lemma utf8_run_two (b0 b1 : N) (bs : list N) :
  194 <= b0 <= 223 -> 128 <= b1 <= 191 ->
  utf8_run utf8_idle (b0 :: b1 :: bs)
  = ((b0 - 192) * 64 + (b1 - 128)) :: utf8_run utf8_idle bs.
Proof.
  intros H0 H1. cbn [utf8_run utf8_step utf8_idle needed]. unfold utf8_begin.
  decide_tests. cbn. decide_tests. reflexivity.
Qed.

Lemma utf8_run_three (b0 b1 b2 : N) (bs : list N) :
  224 <= b0 <= 239 ->
  128 <= b1 <= 191 -> (b0 = 224 -> 160 <= b1) -> (b0 = 237 -> b1 <= 159) ->
  128 <= b2 <= 191 ->
  utf8_run utf8_idle (b0 :: b1 :: b2 :: bs)
  = ((b0 - 224) * 4096 + (b1 - 128) * 64 + (b2 - 128)) :: utf8_run utf8_idle bs.
Proof.
  intros H0 H1 Hlo Hhi H2.
  cbn [utf8_run utf8_step utf8_idle needed]. unfold utf8_begin.
  decide_tests; cbn; decide_tests; cbn; decide_tests;
    (cbn [app]; apply (f_equal2 (@cons N)); [lia|reflexivity]).
Qed.

Lemma utf8_run_four (b0 b1 b2 b3 : N) (bs : list N) :
  240 <= b0 <= 244 ->
  128 <= b1 <= 191 -> (b0 = 240 -> 144 <= b1) -> (b0 = 244 -> b1 <= 143) ->
  128 <= b2 <= 191 -> 128 <= b3 <= 191 ->
  utf8_run utf8_idle (b0 :: b1 :: b2 :: b3 :: bs)
  = ((b0 - 240) * 262144 + (b1 - 128) * 4096 + (b2 - 128) * 64 + (b3 - 128))
      :: utf8_run utf8_idle bs.
Proof.
  intros H0 H1 Hlo Hhi H2 H3.
  cbn [utf8_run utf8_step utf8_idle needed]. unfold utf8_begin.
  decide_tests; cbn; decide_tests; cbn; decide_tests; cbn; decide_tests;
    (cbn [app]; apply (f_equal2 (@cons N)); [lia|reflexivity]).
Qed.

Lemma utf8_decode_ascii (b : N) (bs : list N) :
  b < 128 -> utf8_decode (b :: bs) = b :: utf8_decode bs.
Proof.
  intro H. unfold utf8_decode. rewrite utf8_run_ascii by exact H.
  cbn [flat_map]. unfold utf16.
  destruct (N.ltb_spec b 65536); [reflexivity|lia].
Qed.

(** Decoding the octets of a code point of the basic plane that is not a
    surrogate gives it back. *)
Lemma utf8_decode_bmp (c : N) (bs : list N) :
  c < 65536 ->
  is_lead c = false ->
  is_trail c = false ->
  utf8_decode (utf8 c ++ bs) = c :: utf8_decode bs.
Proof.
  intros H Hl Ht.
  assert (Hs : c < 55296 \/ 57343 < c).
  { unfold is_lead, is_trail in Hl, Ht.
    destruct (N.leb_spec 55296 c), (N.leb_spec c 56319),
      (N.leb_spec 56320 c), (N.leb_spec c 57343);
      cbn in Hl, Ht; try discriminate; lia. }
  unfold utf8_decode, utf8.
  destruct (N.ltb_spec c 128) as [H1|H1].
  { cbn [app]. rewrite utf8_run_ascii by exact H1. cbn [flat_map].
    unfold utf16. destruct (N.ltb_spec c 65536); [reflexivity|lia]. }
  destruct (N.ltb_spec c 2048) as [H2|H2].
  { cbn [app]. rewrite utf8_run_two by div_lia. cbn [flat_map].
    replace ((192 + c / 64 - 192) * 64 + (128 + c mod 64 - 128)) with c by div_lia.
    unfold utf16. destruct (N.ltb_spec c 65536); [reflexivity|lia]. }
  destruct (N.ltb_spec c 65536) as [H3|H3]; [|lia].
  cbn [app]. rewrite utf8_run_three by div_lia. cbn [flat_map].
  replace ((224 + c / 4096 - 224) * 4096 + (128 + (c / 64) mod 64 - 128) * 64
           + (128 + c mod 64 - 128)) with c by div_lia.
  unfold utf16. destruct (N.ltb_spec c 65536); [reflexivity|lia].
Qed.

(** Decoding the octets of the code point of a surrogate pair gives the
    pair back. *)
Lemma utf8_decode_pair (hi lo : codeunit) (bs : list N) :
  is_lead hi = true ->
  is_trail lo = true ->
  utf8_decode (utf8 (pair_codepoint hi lo) ++ bs) = hi :: lo :: utf8_decode bs.
Proof.
  unfold is_lead, is_trail, pair_codepoint. intros Hh Hl.
  apply andb_prop in Hh, Hl. destruct Hh as [Hh1 Hh2], Hl as [Hl1 Hl2].
  apply N.leb_le in Hh1, Hh2, Hl1, Hl2.
  set (cp := (hi - 55296) * 1024 + (lo - 56320) + 65536).
  assert (Hcp : 65536 <= cp < 1114112) by (unfold cp; lia).
  unfold utf8_decode, utf8.
  destruct (N.ltb_spec cp 128); [lia|].
  destruct (N.ltb_spec cp 2048); [lia|].
  destruct (N.ltb_spec cp 65536); [lia|].
  cbn [app]. rewrite utf8_run_four by div_lia. cbn [flat_map].
  replace ((240 + cp / 262144 - 240) * 262144
           + (128 + (cp / 4096) mod 64 - 128) * 4096
           + (128 + (cp / 64) mod 64 - 128) * 64
           + (128 + cp mod 64 - 128)) with cp by div_lia.
  unfold utf16. destruct (N.ltb_spec cp 65536); [lia|].
  cbn [app]. f_equal; [unfold cp; div_lia|]. f_equal. unfold cp; div_lia.
Qed.

Lemma pair_codepoint_bound (hi lo : codeunit) :
  is_lead hi = true -> is_trail lo = true -> pair_codepoint hi lo < 1114112.
Proof.
  unfold is_lead, is_trail, pair_codepoint. intros Hh Hl.
  apply andb_prop in Hh, Hl. destruct Hh as [Hh1 Hh2], Hl as [Hl1 Hl2].
  apply N.leb_le in Hh1, Hh2, Hl1, Hl2. lia.
Qed.

Lemma decode_percent_utf8_bmp (plus : bool) (c : N) (rest : jsstring) :
  c < 65536 ->
  is_lead c = false ->
  is_trail c = false ->
  utf8_decode (percent_decode plus (percent_utf8 c ++ rest))
  = c :: utf8_decode (percent_decode plus rest).
Proof.
  intros H Hl Ht. unfold percent_utf8.
  rewrite percent_decode_percent by (apply utf8_octets; lia).
  apply utf8_decode_bmp; assumption.
Qed.

Lemma decode_percent_utf8_pair (plus : bool) (hi lo : codeunit) (rest : jsstring) :
  is_lead hi = true ->
  is_trail lo = true ->
  utf8_decode (percent_decode plus (percent_utf8 (pair_codepoint hi lo) ++ rest))
  = hi :: lo :: utf8_decode (percent_decode plus rest).
Proof.
  intros Hh Hl. unfold percent_utf8.
  rewrite percent_decode_percent
    by (apply utf8_octets, pair_codepoint_bound; assumption).
  apply utf8_decode_pair; assumption.
Qed.

Lemma form_unreserved_uri (c : codeunit) :
  form_unreserved c = true -> uri_unreserved c = true /\ c <> 43.
Proof.
  intro H. split.
  - revert H. unfold form_unreserved, uri_unreserved.
    destruct (is_alnum c); [reflexivity|]. cbn.
    destruct (c =? 42), (c =? 45), (c =? 46), (c =? 95); cbn;
      rewrite ?orb_true_r; try reflexivity; discriminate.
  - intros ->. discriminate H.
Qed.

Lemma uri_unreserved_plain (plus : bool) (c : codeunit) (rest : jsstring) :
  uri_unreserved c = true ->
  c <> 43 ->
  utf8_decode (percent_decode plus (c :: rest))
  = c :: utf8_decode (percent_decode plus rest).
Proof.
  intros Hun Hplus. cbn [percent_decode].
  destruct (N.eqb_spec c 37) as [->|_]; [discriminate Hun|].
  destruct (N.eqb_spec c 43) as [->|_]; [contradiction|].
  rewrite andb_false_r.
  apply utf8_decode_ascii, uri_unreserved_ascii, Hun.
Qed.

(** Percent-decoding what [encodeURIComponent] gives and reading the
    octets as UTF-8 gives the string back. *)
Lemma decode_encodeURIComponent (q : jsstring) :
  forall u,
    sixteen_bit q = true ->
    encodeURIComponent q = Some u ->
    utf8_decode (percent_decode false u) = q.
Proof.
  induction q as [|c r IH1 IH2] using jsstring_pair_ind; intros u H16.
  - intros [= <-]. reflexivity.
  - unfold sixteen_bit in *. cbn [forallb] in H16.
    apply andb_prop in H16. destruct H16 as [Hc H16]. apply N.ltb_lt in Hc.
    unfold encodeURIComponent; fold encodeURIComponent.
    destruct (uri_unreserved c) eqn:Hun.
    + destruct (encodeURIComponent r) as [u'|]; [|discriminate].
      intros [= <-]. rewrite uri_unreserved_plain, (IH1 u' H16 eq_refl);
        [reflexivity|exact Hun|intros ->; discriminate Hun].
    + destruct (is_trail c) eqn:Ht; [discriminate|].
      destruct (is_lead c) eqn:Hl.
      * destruct r as [|d r']; [discriminate|].
        destruct (is_trail d) eqn:Hd; [|discriminate].
        cbn [tl] in IH2. cbn [forallb] in H16.
        apply andb_prop in H16. destruct H16 as [_ H16].
        destruct (encodeURIComponent r') as [u'|]; [|discriminate].
        intros [= <-].
        rewrite (decode_percent_utf8_pair false c d u' Hl Hd), (IH2 u' H16 eq_refl).
        reflexivity.
      * destruct (encodeURIComponent r) as [u'|]; [|discriminate].
        intros [= <-].
        rewrite (decode_percent_utf8_bmp false c u' Hc Hl Ht), (IH1 u' H16 eq_refl).
        reflexivity.
Qed.

(** Decoding what the form serializer gives for a text gives it back. *)
Lemma decode_form_encode (s : jsstring) :
  is_text s = true ->
  utf8_decode (percent_decode true (form_encode s)) = s.
Proof.
  unfold is_text, sixteen_bit.
  induction s as [|c r IH1 IH2] using jsstring_pair_ind; [reflexivity|].
  intro H. apply andb_prop in H. destruct H as [H16 Hwf].
  cbn [forallb] in H16. apply andb_prop in H16. destruct H16 as [Hc H16].
  apply N.ltb_lt in Hc. cbn [isWellFormed] in Hwf. cbn [form_encode].
  destruct (form_unreserved c) eqn:Hun.
  - destruct (form_unreserved_uri c Hun) as [Huri Hplus].
    destruct (ascii_not_surrogate c (uri_unreserved_ascii c Huri)) as [Ht Hl].
    rewrite Ht, Hl in Hwf.
    rewrite (uri_unreserved_plain true c _ Huri Hplus), IH1;
      [reflexivity|rewrite H16, Hwf; reflexivity].
  - destruct (N.eqb_spec c 32) as [->|_].
    { cbn in Hwf. rewrite <- IH1 at 2 by (rewrite H16, Hwf; reflexivity).
      reflexivity. }
    destruct (is_trail c) eqn:Ht; [discriminate|].
    destruct (is_lead c) eqn:Hl.
    + destruct r as [|d r']; [discriminate|].
      apply andb_prop in Hwf. destruct Hwf as [Hd Hwf]. rewrite Hd.
      cbn [tl] in IH2. cbn [forallb] in H16.
      apply andb_prop in H16. destruct H16 as [_ H16].
      rewrite (decode_percent_utf8_pair true c d _ Hl Hd), IH2;
        [reflexivity|rewrite H16, Hwf; reflexivity].
    + rewrite (decode_percent_utf8_bmp true c _ Hc Hl Ht), IH1;
        [reflexivity|rewrite H16, Hwf; reflexivity].
Qed.

Lemma form_encode_inj (a b : jsstring) :
  is_text a = true -> is_text b = true ->
  form_encode a = form_encode b -> a = b.
Proof.
  intros Ha Hb H.
  rewrite <- (decode_form_encode a Ha), <- (decode_form_encode b Hb), H.
  reflexivity.
Qed.

Lemma form_encode_no_amp (s : jsstring) : ~ In 38 (form_encode s).
Proof.
  intro H. destruct (form_encode_not_delimiter s 38 H); discriminate.
Qed.

(** X13. Two queries of 16-bit code units for which the timer callback
    does the same, one of them well formed, are the same query: the
    search request tells every well-formed query from every other. *)
Theorem search_request_inj (q1 q2 : jsstring) (s : State) :
  sixteen_bit q1 = true ->
  sixteen_bit q2 = true ->
  isWellFormed q1 = true ->
  searchTimer_callback q1 s = searchTimer_callback q2 s ->
  q1 = q2.
Proof.
  intros H1 H2 Hwf H.
  apply (f_equal (fun x => requests (env x))) in H.
  unfold searchTimer_callback in H.
  destruct (encodeURIComponent_isWellFormed q1 Hwf) as [u1 Hu1].
  rewrite Hu1 in H.
  destruct (encodeURIComponent q2) as [u2|] eqn:Hu2; cbn in H.
  - apply app_inv_head in H. injection H as H. subst u2.
    rewrite <- (decode_encodeURIComponent q1 u1 H1 Hu1),
      <- (decode_encodeURIComponent q2 u1 H2 Hu2).
    reflexivity.
  - exfalso. apply (f_equal (@List.length request)) in H.
    rewrite length_app in H. cbn in H. lia.
Qed.

Lemma search_request_inj_witness :
  searchTimer_callback (lit "dal") sample_selected
  <> searchTimer_callback (lit "Dal") sample_selected.
Proof.
  intro H.
  pose proof (search_request_inj (lit "dal") (lit "Dal") sample_selected
                eq_refl eq_refl eq_refl H) as Heq.
  discriminate Heq.
Defined.

Lemma preview_url_determines (p1 p2 : Product) (st1 st2 e1 e2 : jsstring) :
  is_text (barcode p1) = true -> is_text (barcode p2) = true ->
  is_text (trim st1) = true -> is_text (trim st2) = true ->
  is_text (trim e1) = true -> is_text (trim e2) = true ->
  preview_url p1 st1 e1 = preview_url p2 st2 e2 ->
  barcode p1 = barcode p2 /\ trim st1 = trim st2 /\ trim e1 = trim e2.
Proof.
  intros Hb1 Hb2 Hs1 Hs2 He1 He2 H. unfold preview_url in H.
  apply app_inv_head in H.
  change (lit "&store=" ++ ?x) with (38 :: lit "store=" ++ x) in H.
  apply split_at_first in H; try apply form_encode_no_amp.
  destruct H as [Hb H]. apply app_inv_head in H.
  change (lit "&exp=" ++ ?x) with (38 :: lit "exp=" ++ x) in H.
  apply split_at_first in H; try apply form_encode_no_amp.
  destruct H as [Hs H]. apply app_inv_head in H.
  split; [|split]; apply form_encode_inj; assumption.
Qed.

(** X14. The address [updatePreview] gives the preview image determines
    the three values put into it: on two pages whose barcodes and
    trimmed fields are texts, the addresses are the same only when the
    barcodes of the selected products, the trimmed store names and the
    trimmed expiries are. *)
Theorem preview_src_inj (s1 s2 : State) (p1 p2 : Product) :
  selectedProduct s1 = Some p1 ->
  selectedProduct s2 = Some p2 ->
  is_text (barcode p1) = true -> is_text (barcode p2) = true ->
  is_text (trim (storeNameInput_value (dom s1))) = true ->
  is_text (trim (storeNameInput_value (dom s2))) = true ->
  is_text (trim (expInput_value (dom s1))) = true ->
  is_text (trim (expInput_value (dom s2))) = true ->
  previewImg_src (dom (updatePreview s1)) = previewImg_src (dom (updatePreview s2)) ->
  barcode p1 = barcode p2
  /\ trim (storeNameInput_value (dom s1)) = trim (storeNameInput_value (dom s2))
  /\ trim (expInput_value (dom s1)) = trim (expInput_value (dom s2)).
Proof.
  intros Hsel1 Hsel2 Hb1 Hb2 Hs1 Hs2 He1 He2 H.
  rewrite (proj2 (updatePreview_selected s1 p1 Hsel1)),
    (proj2 (updatePreview_selected s2 p2 Hsel2)) in H.
  apply (preview_url_determines p1 p2 _ _ _ _ Hb1 Hb2 Hs1 Hs2 He1 He2).
  congruence.
Qed.

Lemma preview_src_inj_witness :
  previewImg_src
    (dom (updatePreview (step (StoreInput (lit " Sri & Vel ")) sample_selected)))
  <> previewImg_src
       (dom (updatePreview (step (StoreInput (lit "Sri&store=Vel")) sample_selected))).
Proof.
  intro H.
  pose proof (preview_src_inj
                (step (StoreInput (lit " Sri & Vel ")) sample_selected)
                (step (StoreInput (lit "Sri&store=Vel")) sample_selected)
                sample_product sample_product
                eq_refl eq_refl eq_refl eq_refl eq_refl eq_refl eq_refl eq_refl H)
    as Heq.
  destruct Heq as (_ & Heq & _). discriminate Heq.
Defined.

(** ** A print attempt as a whole; how many searches *)

(** X15. A print attempt leaves the page as it found it: when the
    button is enabled and labelled "Print" and a product is selected, a
    click followed by the settling of its request gives back the same
    page, selection and timers; what is added is one request to
    /api/print and one notification. *)
Theorem print_attempt_restores_page
  (s : State) (p : Product) (fetched : exn + Response) :
  selectedProduct s = Some p ->
  printBtn_disabled (dom s) = false ->
  printBtn_textContent (dom s) = lit "Print" ->
  let s' := step (PrintSettled fetched) (step PrintClick s) in
  dom s' = dom s
  /\ selectedProduct s' = selectedProduct s
  /\ searchTimer s' = searchTimer s
  /\ timers (env s') = timers (env s)
  /\ List.length (print_requests (env s')) = S (List.length (print_requests (env s)))
  /\ List.length (alerts (env s')) = S (List.length (alerts (env s))).
Proof.
  intros Hsel Hdis Htxt s'. subst s'. cbn [step]. rewrite Hdis.
  unfold printBtn_click. rewrite Hsel.
  unfold print_settled, print_try, print_catch, print_requests.
  destruct s as [sel st d e]. cbn in Hsel, Hdis, Htxt.
  destruct d; cbn in Hdis, Htxt; subst.
  destruct fetched as [ex|[rok [ex|data]]]; cbn;
    try destruct (rok && ok data); cbn;
    rewrite filter_app, !length_app; cbn;
    repeat split; lia.
Qed.

Lemma print_attempt_restores_page_witness :
  let s := step (CountInput (lit "2")) sample_selected in
  let s' := step (PrintSettled
                    (inr {| res_ok := true;
                            res_json := inr {| ok := true; printed := 2;
                                               errors := None |} |}))
              (step PrintClick s) in
  dom s' = dom s
  /\ alerts (env s') = [lit "Printed 2 label(s)."].
Proof.
  pose proof (print_attempt_restores_page
                (step (CountInput (lit "2")) sample_selected) sample_product
                (inr {| res_ok := true;
                        res_json := inr {| ok := true; printed := 2;
                                           errors := None |} |})
                eq_refl eq_refl eq_refl) as H.
  cbv zeta in H. destruct H as (Hdom & _).
  split; [exact Hdom|reflexivity].
Defined.

Lemma step_search_budget (ev : event) (s : State) :
  timers_ok s ->
  (List.length (search_requests (env (step ev s)))
   + List.length (timers (env (step ev s)))
   <= List.length (search_requests (env s)) + List.length (timers (env s))
      + (if is_edit ev then 1 else 0))%nat.
Proof.
  unfold timers_ok, search_requests.
  destruct ev as [v|v|v|v|i| |t|items|fetched]; cbn [step is_edit].
  - unfold productSearch_input. open_state s. cbn.
    destruct tms as [|tm [|tm' tms]]; [| |contradiction].
    + intros _. destruct st; cbn; destruct (truthy (trim v)); cbn; lia.
    + intros [-> _]. cbn.
      destruct (truthy (trim v)); cbn; rewrite Pos.eqb_refl; cbn; lia.
  - intros _. unfold updatePreview. cbn.
    destruct (selectedProduct s); cbn; rewrite ?filter_app, ?length_app; cbn; lia.
  - intros _. unfold updatePreview. cbn.
    destruct (selectedProduct s); cbn; rewrite ?filter_app, ?length_app; cbn; lia.
  - intros _. cbn. lia.
  - intros _. destruct (nth_error (suggestions_children (dom s)) i) as [[txt p]|];
      [|lia].
    unfold selectProduct, updatePreview. cbn.
    rewrite filter_app, length_app. cbn. lia.
  - intros _. destruct (printBtn_disabled (dom s)); [lia|].
    unfold printBtn_click. destruct (selectedProduct s); [|lia].
    cbn. rewrite filter_app, length_app. cbn. lia.
  - unfold advance, fire, searchTimer_callback. open_state s. cbn.
    destruct tms as [|tm [|tm' tms]]; [| |contradiction]; cbn; [lia|].
    intros _. destruct (due tm <=? t); cbn; [|lia].
    destruct (encodeURIComponent (query tm)); cbn; rewrite Pos.eqb_refl; cbn;
      rewrite ?filter_app, ?length_app; cbn; lia.
  - intros _. unfold search_resolved. destruct items; cbn; lia.
  - intros _. unfold print_settled, print_try, print_catch.
    destruct fetched as [e|[rok [e|data]]]; cbn; try lia.
    destruct (rok && ok data); cbn; lia.
Qed.

Lemma run_search_budget (evs : list event) :
  forall s : State,
    timers_ok s ->
    (List.length (search_requests (env (run evs s)))
     + List.length (timers (env (run evs s)))
     <= List.length (search_requests (env s)) + List.length (timers (env s))
        + edits_in evs)%nat.
Proof.
  unfold edits_in.
  induction evs as [|ev evs IH]; intros s Hok; [cbn; lia|].
  change (run (ev :: evs) s) with (run evs (step ev s)).
  pose proof (IH (step ev s) (step_timers_ok ev s Hok)) as H1.
  pose proof (step_search_budget ev s Hok) as H2.
  cbn [filter]. destruct (is_edit ev); cbn [List.length]; lia.
Qed.

(** X16. The page never issues more search requests than the search box
    was edited: after any events, from the loading of the page on, the
    search requests issued and the timer still pending together are at
    most as many as the edits among the events. *)
Theorem search_requests_bounded (evs : list event) (d : Dom) (t : N) :
  let s := run evs (initial d t) in
  (List.length (search_requests (env s)) + List.length (timers (env s))
   <= edits_in evs)%nat.
Proof.
  exact (run_search_budget evs (initial d t) I).
Qed.

(** ** Reading the address of the preview back *)

Lemma not_In_forallb (x : codeunit) (s : jsstring) :
  forallb (fun c => negb (c =? x)) s = true -> ~ In x s.
Proof.
  induction s as [|c r IH]; cbn; [tauto|].
  intro H. apply andb_prop in H. destruct H as [Hc Hr].
  intros [->|Hin]; [rewrite N.eqb_refl in Hc; discriminate|exact (IH Hr Hin)].
Qed.

Lemma not_In_app (x : codeunit) (a b : jsstring) :
  ~ In x a -> ~ In x b -> ~ In x (a ++ b).
Proof. intros Ha Hb H. apply in_app_or in H. tauto. Qed.

Lemma not_In_cons (x c : codeunit) (b : jsstring) :
  c <> x -> ~ In x b -> ~ In x (c :: b).
Proof. intros Hc Hb [H|H]; tauto. Qed.

Lemma form_encode_no_char (x : codeunit) (s : jsstring) :
  is_delimiter x = true -> x <> 43 -> ~ In x (form_encode s).
Proof.
  intros Hx Hplus H.
  destruct (form_encode_not_delimiter s x H); congruence.
Qed.

Lemma cut_at_first (x : codeunit) (a r : jsstring) :
  ~ In x a -> cut_at x (a ++ x :: r) = (a, r).
Proof.
  induction a as [|c a IH]; cbn; intro H.
  - rewrite N.eqb_refl. reflexivity.
  - destruct (N.eqb_spec c x) as [->|_]; [tauto|].
    rewrite IH by tauto. reflexivity.
Qed.

Lemma cut_at_none (x : codeunit) (a : jsstring) :
  ~ In x a -> cut_at x a = (a, []).
Proof.
  induction a as [|c a IH]; cbn; intro H; [reflexivity|].
  destruct (N.eqb_spec c x) as [->|_]; [tauto|].
  rewrite IH by tauto. reflexivity.
Qed.

Lemma split_on_none (x : codeunit) (a : jsstring) :
  ~ In x a -> split_on x a = [a].
Proof.
  induction a as [|c a IH]; cbn; intro H; [reflexivity|].
  destruct (N.eqb_spec c x) as [->|_]; [tauto|].
  rewrite IH by tauto. reflexivity.
Qed.

Lemma split_on_first (x : codeunit) (a r : jsstring) :
  ~ In x a -> split_on x (a ++ x :: r) = a :: split_on x r.
Proof.
  induction a as [|c a IH]; cbn; intro H.
  - rewrite N.eqb_refl. reflexivity.
  - destruct (N.eqb_spec c x) as [->|_]; [tauto|].
    rewrite IH by tauto. reflexivity.
Qed.

Lemma hex_upper_ascii (d : N) : d < 16 -> hex_upper d < 128.
Proof. intro H. unfold hex_upper. destruct (N.ltb_spec d 10); lia. Qed.

Lemma percent_utf8_ascii (cp : N) :
  cp < 1114112 -> Forall (fun c => c < 128) (percent_utf8 cp).
Proof.
  intro H. unfold percent_utf8. apply Forall_flat_map.
  eapply Forall_impl; [|exact (utf8_octets cp H)].
  intros b Hb. cbn beta in Hb |- *. unfold percent.
  constructor; [lia|].
  constructor; [apply hex_upper_ascii; div_lia|].
  constructor; [apply hex_upper_ascii; div_lia|constructor].
Qed.

(** What the form serializer gives for 16-bit code units is ASCII. *)
Lemma form_encode_ascii (s : jsstring) :
  sixteen_bit s = true -> Forall (fun c => c < 128) (form_encode s).
Proof.
  unfold sixteen_bit.
  induction s as [|c r IH1 IH2] using jsstring_pair_ind; [constructor|].
  cbn [forallb]. intro H. apply andb_prop in H. destruct H as [Hc H16].
  apply N.ltb_lt in Hc. cbn [form_encode].
  destruct (form_unreserved c) eqn:Hun.
  { constructor; [|exact (IH1 H16)].
    exact (uri_unreserved_ascii c (proj1 (form_unreserved_uri c Hun))). }
  destruct (N.eqb_spec c 32) as [->|_]; [constructor; [lia|exact (IH1 H16)]|].
  destruct (is_trail c).
  { apply Forall_app. split; [apply percent_utf8_ascii; lia|exact (IH1 H16)]. }
  destruct (is_lead c) eqn:Hl.
  - destruct r as [|d r']; [apply percent_utf8_ascii; lia|].
    cbn [tl] in IH2. pose proof H16 as H16'. cbn [forallb] in H16'.
    apply andb_prop in H16'. destruct H16' as [_ H16'].
    destruct (is_trail d) eqn:Hd; apply Forall_app; split;
      [apply percent_utf8_ascii, pair_codepoint_bound; assumption
      |exact (IH2 H16')
      |apply percent_utf8_ascii; lia
      |exact (IH1 H16)].
  - apply Forall_app. split; [apply percent_utf8_ascii; lia|exact (IH1 H16)].
Qed.

(** ASCII text is its own UTF-8. *)
Lemma utf8_encode_ascii (s : jsstring) :
  Forall (fun c => c < 128) s -> utf8_encode s = s.
Proof.
  induction 1 as [|c r Hc _ IH]; [reflexivity|].
  cbn [utf8_encode].
  destruct (ascii_not_surrogate c Hc) as [Ht Hl]. rewrite Ht, Hl, IH.
  unfold utf8. destruct (N.ltb_spec c 128); [reflexivity|lia].
Qed.

(** A text read back from what the form serializer wrote for it. *)
Lemma form_decode_form_encode (s : jsstring) :
  is_text s = true -> form_decode (form_encode s) = s.
Proof.
  intro H. unfold form_decode.
  rewrite utf8_encode_ascii.
  - exact (decode_form_encode s H).
  - apply form_encode_ascii. unfold is_text in H. apply andb_prop in H. tauto.
Qed.

(** The path of the address of the preview and the pairs a
    form-urlencoded parser reads from it: the three names, and each
    value as the serializer wrote it, decoded. *)
Lemma searchParams_preview_url (p : Product) (store exp : jsstring) :
  path_of (preview_url p store exp) = lit "/preview"
  /\ searchParams (preview_url p store exp)
     = [(lit "barcode", form_decode (form_encode (barcode p)));
        (lit "store", form_decode (form_encode (trim store)));
        (lit "exp", form_decode (form_encode (trim exp)))].
Proof.
  set (B := form_encode (barcode p)).
  set (S := form_encode (trim store)).
  set (E := form_encode (trim exp)).
  set (Q := lit "barcode=" ++ B ++ lit "&store=" ++ S ++ lit "&exp=" ++ E).
  assert (Hno : forall x, is_delimiter x = true -> x <> 43 -> x <> 38 -> x <> 61 ->
                  ~ In x Q).
  { intros x Hx Hp H38 H61. unfold Q.
    repeat first [ apply not_In_app
                 | apply form_encode_no_char; assumption ];
      intro Hin; unfold lit in Hin; cbn in Hin;
      repeat (destruct Hin as [Hin|Hin]; [subst x; try discriminate Hx; congruence|]);
      exact Hin. }
  assert (Hfrag : strip_fragment (preview_url p store exp) = lit "/preview" ++ 63 :: Q).
  { unfold strip_fragment.
    change (preview_url p store exp) with (lit "/preview" ++ 63 :: Q).
    rewrite cut_at_none; [reflexivity|].
    apply not_In_app; [apply not_In_forallb; reflexivity|].
    apply not_In_cons; [discriminate|].
    apply Hno; [reflexivity| | | ]; discriminate. }
  assert (Hcut : cut_at 63 (lit "/preview" ++ 63 :: Q) = (lit "/preview", Q))
    by (apply cut_at_first, not_In_forallb; reflexivity).
  split; [unfold path_of; rewrite Hfrag, Hcut; reflexivity|].
  unfold searchParams, query_of. rewrite Hfrag, Hcut. cbn [snd].
  unfold parse_query, Q.
  change (lit "barcode=" ++ B ++ lit "&store=" ++ S ++ lit "&exp=" ++ E)
    with ((lit "barcode=" ++ B) ++ 38 :: (lit "store=" ++ S) ++ 38 :: (lit "exp=" ++ E)).
  assert (Hamp : forall l, ~ In 38 l -> forall X, X = B \/ X = S \/ X = E -> ~ In 38 (l ++ X)).
  { intros l Hl X HX. apply not_In_app; [exact Hl|].
    destruct HX as [ -> | [ -> | -> ] ]; apply form_encode_no_char;
      (reflexivity || discriminate). }
  rewrite split_on_first by (apply Hamp; [apply not_In_forallb; reflexivity|tauto]).
  rewrite split_on_first by (apply Hamp; [apply not_In_forallb; reflexivity|tauto]).
  rewrite split_on_none by (apply Hamp; [apply not_In_forallb; reflexivity|tauto]).
  cbn [filter truthy app lit map].
  change (lit "barcode=" ++ B) with (lit "barcode" ++ 61 :: B).
  change (lit "store=" ++ S) with (lit "store" ++ 61 :: S).
  change (lit "exp=" ++ E) with (lit "exp" ++ 61 :: E).
  change (truthy (lit "barcode" ++ 61 :: B)) with true.
  change (truthy (lit "store" ++ 61 :: S)) with true.
  change (truthy (lit "exp" ++ 61 :: E)) with true.
  cbn [map].
  rewrite !cut_at_first by (apply not_In_forallb; reflexivity).
  reflexivity.
Qed.

(** C7, as the code has it. Selecting product [p] puts its name in the
    search box, hides the suggestion list, enables the print button and
    starts exactly one preview load, at /preview; when [p]'s barcode is
    a text (no surrogate outside a pair), the barcode parameter read
    from the address of that load is [p]'s barcode. A click on a
    suggestion row of [p] does just that. *)
Theorem selectProduct_effects (s : State) (p : Product) :
  let s' := selectProduct p s in
  selectedProduct s' = Some p
  /\ productSearch_value (dom s') = name p
  /\ suggestions_display (dom s') = lit "none"
  /\ printBtn_disabled (dom s') = false
  /\ (exists url,
        requests (env s') = requests (env s) ++ [ImageGet url]
        /\ path_of url = lit "/preview"
        /\ (is_text (barcode p) = true ->
            URLSearchParams_get (lit "barcode") (searchParams url)
            = Some (barcode p)))
  /\ (forall i txt,
        nth_error (suggestions_children (dom s)) i = Some (txt, p) ->
        step (SuggestionClick i) s = s').
Proof.
  cbv zeta. split; [reflexivity|]. split; [reflexivity|].
  split; [reflexivity|]. split; [reflexivity|]. split.
  - exists (preview_url p (storeNameInput_value (dom s)) (expInput_value (dom s))).
    destruct (searchParams_preview_url p (storeNameInput_value (dom s))
                (expInput_value (dom s))) as [Hcut Hparams].
    split; [reflexivity|]. split; [exact Hcut|].
    intro Htext. rewrite Hparams.
    rewrite (form_decode_form_encode _ Htext). reflexivity.
  - intros i txt Hrow. cbn [step]. rewrite Hrow. reflexivity.
Qed.

Lemma selectProduct_effects_witness :
  let s := search_resolved [sample_product] (initial sample_dom 0) in
  exists url,
    requests (env (step (SuggestionClick 0) s)) = [ImageGet url]
    /\ path_of url = lit "/preview"
    /\ URLSearchParams_get (lit "barcode") (searchParams url) = Some (lit "8901").
Proof.
  pose proof (selectProduct_effects
                (search_resolved [sample_product] (initial sample_dom 0))
                sample_product) as H.
  cbv zeta in H. destruct H as (_ & _ & _ & _ & (url & Hreq & Hpath & Hget) & Hclick).
  cbv zeta. rewrite (Hclick 0%nat _ eq_refl).
  exists url. split; [exact Hreq|]. split; [exact Hpath|exact (Hget eq_refl)].
Defined.

(** C7 as stated fails for a product whose barcode holds a surrogate
    outside a pair: the serializer writes U+FFFD in its place, so the
    barcode parameter of the one preview load is not the barcode. *)
Lemma selectProduct_lone_surrogate_barcode :
  let p := {| name := lit "Rice";
              quantity := {| Number_text := lit "1" |};
              measure := lit "kg";
              barcode := lit "89" ++ [55296];
              mrp := {| Number_text := lit "60" |};
              retail_price := {| Number_text := lit "55" |} |} in
  let s' := selectProduct p (initial sample_dom 0) in
  exists url,
    requests (env s') = [ImageGet url]
    /\ URLSearchParams_get (lit "barcode") (searchParams url)
       = Some (lit "89" ++ [65533])
    /\ URLSearchParams_get (lit "barcode") (searchParams url) <> Some (barcode p).
Proof.
  cbv zeta. eexists. split; [reflexivity|]. split; [vm_compute; reflexivity|].
  vm_compute. discriminate.
Qed.

(** C8, as the code has it. An edit of the store-name or of the expiry
    field, with product [p] selected, starts exactly one preview load,
    at /preview; when [p]'s barcode and the trimmed contents of the two
    fields after the edit are texts (no surrogate outside a pair), the
    parameters read from its address are barcode, store and exp with
    these three values. With no selection [updatePreview] leaves the
    state as it is, so that the edit changes the edited field and
    nothing else. *)
Theorem field_input_preview (s : State) (v : jsstring) :
  (forall p, selectedProduct s = Some p ->
     (exists url,
        requests (env (step (StoreInput v) s)) = requests (env s) ++ [ImageGet url]
        /\ path_of url = lit "/preview"
        /\ (is_text (barcode p) = true ->
            is_text (trim v) = true ->
            is_text (trim (expInput_value (dom s))) = true ->
            searchParams url
            = [(lit "barcode", barcode p); (lit "store", trim v);
               (lit "exp", trim (expInput_value (dom s)))]))
     /\ (exists url,
           requests (env (step (ExpInput v) s)) = requests (env s) ++ [ImageGet url]
           /\ path_of url = lit "/preview"
           /\ (is_text (barcode p) = true ->
               is_text (trim (storeNameInput_value (dom s))) = true ->
               is_text (trim v) = true ->
               searchParams url
               = [(lit "barcode", barcode p);
                  (lit "store", trim (storeNameInput_value (dom s)));
                  (lit "exp", trim v)])))
  /\ (selectedProduct s = None ->
      updatePreview s = s
      /\ step (StoreInput v) s = with_dom (set_storeNameInput_value v) s
      /\ step (ExpInput v) s = with_dom (set_expInput_value v) s).
Proof.
  split.
  - intros p Hsel. split.
    + exists (preview_url p v (expInput_value (dom s))).
      destruct (searchParams_preview_url p v (expInput_value (dom s)))
        as [Hcut Hparams].
      split; [exact (proj1 (updatePreview_selected
                              (with_dom (set_storeNameInput_value v) s) p Hsel))|].
      split; [exact Hcut|].
      intros Hb Hs He. rewrite Hparams.
      rewrite (form_decode_form_encode _ Hb), (form_decode_form_encode _ Hs),
        (form_decode_form_encode _ He). reflexivity.
    + exists (preview_url p (storeNameInput_value (dom s)) v).
      destruct (searchParams_preview_url p (storeNameInput_value (dom s)) v)
        as [Hcut Hparams].
      split; [exact (proj1 (updatePreview_selected
                              (with_dom (set_expInput_value v) s) p Hsel))|].
      split; [exact Hcut|].
      intros Hb Hs He. rewrite Hparams.
      rewrite (form_decode_form_encode _ Hb), (form_decode_form_encode _ Hs),
        (form_decode_form_encode _ He). reflexivity.
  - intro Hsel. cbn [step]. unfold updatePreview. cbn. rewrite Hsel.
    repeat split.
Qed.

Lemma field_input_preview_witness :
  (exists url,
     requests (env (step (StoreInput (lit " A&B ")) sample_selected))
     = requests (env sample_selected) ++ [ImageGet url]
     /\ searchParams url
        = [(lit "barcode", lit "8901"); (lit "store", lit "A&B"); (lit "exp", [])])
  /\ step (StoreInput (lit "A")) (initial sample_dom 0)
     = with_dom (set_storeNameInput_value (lit "A")) (initial sample_dom 0).
Proof.
  split.
  - destruct (proj1 (proj1 (field_input_preview sample_selected (lit " A&B "))
                       sample_product eq_refl)) as (url & Hreq & _ & Hparams).
    exists url. split; [exact Hreq|exact (Hparams eq_refl eq_refl eq_refl)].
  - exact (proj1 (proj2 (proj2 (field_input_preview (initial sample_dom 0) (lit "A"))
                           eq_refl))).
Defined.

(** C8 as stated fails when the edited field holds a surrogate outside a
    pair: the serializer writes U+FFFD in its place, so the store
    parameter of the preview load is not the trimmed field value. *)
Lemma field_input_lone_surrogate :
  let v := lit " Sri " ++ [56832] in
  exists url,
    requests (env (step (StoreInput v) sample_selected))
    = requests (env sample_selected) ++ [ImageGet url]
    /\ URLSearchParams_get (lit "store") (searchParams url)
       = Some (lit "Sri " ++ [65533])
    /\ URLSearchParams_get (lit "store") (searchParams url) <> Some (trim v).
Proof.
  cbv zeta. eexists. split; [reflexivity|]. split; [vm_compute; reflexivity|].
  vm_compute. discriminate.
Qed.
